(** * Streaming response assembler of the chat front-end

    A shallow embedding of [src/app/utils.ts] ([parseSSEData], [isAbortError])
    and of the model adapter of [src/app/MyRuntimeProvider.tsx]
    ([createModelAdapter(...).run]), together with the parts of the JavaScript
    runtime they call ([String.prototype.trim], [split], [startsWith], [slice],
    [JSON.parse]).

    JavaScript strings are sequences of UTF-16 code units; they are modelled as
    lists of code units ([N]).  JavaScript arrays that are indexed and updated
    in place ([contentParts]) are lists with stdpp's lookup and insert.

    The adapter is embedded twice.  The first embedding follows the types the
    source declares ([SSEMessage], [ToolCallData]): it is the one the
    specification speaks about.  The second, [Untyped], handles whatever
    [JSON.parse] returns, since the cast [parsed as SSEMessage] checks
    nothing; [run] is built on it and is total.  [handle_value_declared]
    shows that the two agree on the values of the declared shape. *)

From Stdlib Require Import ZArith NArith String Ascii Bool Lia Sorted.
From stdpp Require Import base option list.

Open Scope N_scope.

(** ** JavaScript strings *)

Definition jsstring := list N.

(** Code units of an ASCII literal. *)
Definition str (s : string) : jsstring :=
  map N_of_ascii (list_ascii_of_string s).

(** Code units of a literal in which every apostrophe stands for a double
    quote (code unit 34); used to write JSON text. *)
Definition wire (s : string) : jsstring :=
  map (fun c => if c =? 39 then 34 else c) (str s).

(** The line feed, ["\n"]. *)
Definition LF : jsstring := [10].

Fixpoint str_eqb (a b : jsstring) : bool :=
  match a, b with
  | [], [] => true
  | x :: a', y :: b' => (x =? y) && str_eqb a' b'
  | _, _ => false
  end.

(** A string is falsy exactly when it is empty. *)
Definition nonempty (s : jsstring) : bool :=
  match s with [] => false | _ :: _ => true end.

(** [WhiteSpace] and [LineTerminator] code points of ECMAScript, the
    characters [String.prototype.trim] removes. *)
Definition is_js_space (c : N) : bool :=
  (c =? 9) || (c =? 10) || (c =? 11) || (c =? 12) || (c =? 13) || (c =? 32)
  || (c =? 160) || (c =? 5760) || ((8192 <=? c) && (c <=? 8202))
  || (c =? 8232) || (c =? 8233) || (c =? 8239) || (c =? 8287)
  || (c =? 12288) || (c =? 65279).

Fixpoint trimStart (s : jsstring) : jsstring :=
  match s with
  | [] => []
  | c :: r => if is_js_space c then trimStart r else s
  end.

Definition trimEnd (s : jsstring) : jsstring := rev (trimStart (rev s)).

(** [s.trim()] *)
Definition trim (s : jsstring) : jsstring := trimEnd (trimStart s).

(** [s.startsWith(p)] *)
Fixpoint startsWith (s p : jsstring) {struct p} : bool :=
  match p, s with
  | [], _ => true
  | x :: p', y :: s' => (x =? y) && startsWith s' p'
  | _ :: _, [] => false
  end.

(** [s.slice(n)] for a non-negative [n]. *)
Definition slice (n : nat) (s : jsstring) : jsstring := drop n s.

(** [s.split("\n")]: the pieces between line feeds; never empty. *)
Fixpoint split_lines (s : jsstring) : list jsstring :=
  match s with
  | [] => [[]]
  | c :: r =>
      if c =? 10 then [] :: split_lines r
      else match split_lines r with
           | h :: t => (c :: h) :: t
           | [] => [[c]]
           end
  end.

(** Decimal rendering of a non-negative integer, as [String(n)] gives it. *)
Fixpoint uint_digits (d : Decimal.uint) : jsstring :=
  match d with
  | Decimal.Nil => []
  | Decimal.D0 r => 48 :: uint_digits r
  | Decimal.D1 r => 49 :: uint_digits r
  | Decimal.D2 r => 50 :: uint_digits r
  | Decimal.D3 r => 51 :: uint_digits r
  | Decimal.D4 r => 52 :: uint_digits r
  | Decimal.D5 r => 53 :: uint_digits r
  | Decimal.D6 r => 54 :: uint_digits r
  | Decimal.D7 r => 55 :: uint_digits r
  | Decimal.D8 r => 56 :: uint_digits r
  | Decimal.D9 r => 57 :: uint_digits r
  end.

Definition N_to_jsstring (n : N) : jsstring := uint_digits (N.to_uint n).

(** ** JSON values and [JSON.parse] *)

(** A number keeps its exact decimal value [± mantissa * 10 ^ exponent]. *)
#[local] Set Warnings "-register-all".
Inductive JSON :=
| JNull
| JBool (b : bool)
| JNumber (negative : bool) (mantissa : N) (exponent : Z)
| JString (s : jsstring)
| JArray (items : list JSON)
| JObject (members : list (jsstring * JSON)).

(** The double nearest to [mantissa * 10 ^ exponent] is zero exactly when the
    value is at most [2 ^ -1075] (half of the least subnormal, ties to even). *)
Definition number_is_zero (mantissa : N) (exponent : Z) : bool :=
  (mantissa =? 0)
  || ((exponent <? 0)%Z
      && (Z.of_N mantissa * 2 ^ 1075 <=? 10 ^ (- exponent))%Z).

(** [ToBoolean]: the test of [if (!v)]. *)
Definition truthy (v : JSON) : bool :=
  match v with
  | JNull => false
  | JBool b => b
  | JNumber _ m e => negb (number_is_zero m e)
  | JString s => nonempty s
  | JArray _ | JObject _ => true
  end.

(** Property read [o.k] on a parsed object: with duplicate keys the last
    member wins. *)
Fixpoint get_member (k : jsstring) (ms : list (jsstring * JSON)) : option JSON :=
  match ms with
  | [] => None
  | (k', v) :: r =>
      match get_member k r with
      | Some w => Some w
      | None => if str_eqb k k' then Some v else None
      end
  end.

Module Parser.

(** The JSON grammar of ECMA-404 as a pushdown automaton that reads one
    code unit at a time. *)

Inductive Frame :=
| FArray (acc : list JSON)
| FObject (acc : list (jsstring * JSON)) (pending : option jsstring).

Inductive NumPhase :=
| NMinus | NZero | NInt | NDot | NFrac | NE | NESign | NExp.

Record Num := {
  phase : NumPhase;
  neg : bool;
  mant : N;
  scale : Z;
  eneg : bool;
  expo : N;
}.

Inductive Mode :=
| MValue (may_close : bool)
| MKey (may_close : bool)
| MColon
| MAfter
| MEnd (v : JSON)
| MString (is_key : bool) (acc : jsstring)
| MEscape (is_key : bool) (acc : jsstring)
| MUnicode (is_key : bool) (acc : jsstring) (count : nat) (val : N)
| MNumber (n : Num)
| MLiteral (rest : jsstring) (v : JSON).

Record PState := { stack : list Frame; mode : Mode }.

Definition is_ws (c : N) : bool :=
  (c =? 32) || (c =? 9) || (c =? 10) || (c =? 13).

Definition digit_of (c : N) : option N :=
  if (48 <=? c) && (c <=? 57) then Some (c - 48) else None.

Definition hex_of (c : N) : option N :=
  if (48 <=? c) && (c <=? 57) then Some (c - 48)
  else if (97 <=? c) && (c <=? 102) then Some (c - 87)
  else if (65 <=? c) && (c <=? 70) then Some (c - 55)
  else None.

(** A finished value goes to the enclosing container, or ends the text. *)
Definition deliver (v : JSON) (stk : list Frame) : option PState :=
  match stk with
  | [] => Some {| stack := []; mode := MEnd v |}
  | FArray acc :: rest =>
      Some {| stack := FArray (v :: acc) :: rest; mode := MAfter |}
  | FObject acc (Some k) :: rest =>
      Some {| stack := FObject ((k, v) :: acc) None :: rest; mode := MAfter |}
  | FObject _ None :: _ => None
  end.

Definition num_start (c : N) : option Num :=
  if c =? 45 then
    Some {| phase := NMinus; neg := true; mant := 0; scale := 0;
            eneg := false; expo := 0 |}
  else match digit_of c with
       | Some d =>
           Some {| phase := if d =? 0 then NZero else NInt; neg := false;
                   mant := d; scale := 0; eneg := false; expo := 0 |}
       | None => None
       end.

Definition is_e (c : N) : bool := (c =? 101) || (c =? 69).

Definition with_phase (p : NumPhase) (n : Num) : Num :=
  {| phase := p; neg := neg n; mant := mant n; scale := scale n;
     eneg := eneg n; expo := expo n |}.

Definition int_digit (d : N) (n : Num) : Num :=
  {| phase := if (phase n, d) is (NMinus, 0) then NZero else NInt;
     neg := neg n; mant := mant n * 10 + d; scale := scale n;
     eneg := eneg n; expo := expo n |}.

Definition frac_digit (d : N) (n : Num) : Num :=
  {| phase := NFrac; neg := neg n; mant := mant n * 10 + d;
     scale := (scale n - 1)%Z; eneg := eneg n; expo := expo n |}.

Definition exp_digit (d : N) (n : Num) : Num :=
  {| phase := NExp; neg := neg n; mant := mant n; scale := scale n;
     eneg := eneg n; expo := expo n * 10 + d |}.

Definition exp_sign (minus : bool) (n : Num) : Num :=
  {| phase := NESign; neg := neg n; mant := mant n; scale := scale n;
     eneg := minus; expo := expo n |}.

(** One more character of a number, when the grammar allows it. *)
Definition num_step (n : Num) (c : N) : option Num :=
  match phase n with
  | NMinus => d ← digit_of c; Some (int_digit d n)
  | NZero =>
      if c =? 46 then Some (with_phase NDot n)
      else if is_e c then Some (with_phase NE n) else None
  | NInt =>
      match digit_of c with
      | Some d => Some (int_digit d n)
      | None =>
          if c =? 46 then Some (with_phase NDot n)
          else if is_e c then Some (with_phase NE n) else None
      end
  | NDot => d ← digit_of c; Some (frac_digit d n)
  | NFrac =>
      match digit_of c with
      | Some d => Some (frac_digit d n)
      | None => if is_e c then Some (with_phase NE n) else None
      end
  | NE =>
      if c =? 43 then Some (exp_sign false n)
      else if c =? 45 then Some (exp_sign true n)
      else d ← digit_of c; Some (exp_digit d n)
  | NESign => d ← digit_of c; Some (exp_digit d n)
  | NExp => d ← digit_of c; Some (exp_digit d n)
  end.

Definition num_value (n : Num) : option JSON :=
  match phase n with
  | NZero | NInt | NFrac | NExp =>
      Some (JNumber (neg n) (mant n)
              (scale n + (if eneg n then - Z.of_N (expo n) else Z.of_N (expo n)))%Z)
  | _ => None
  end.

(** Characters read between values: separators, closers, white space. *)
Definition step_between (st : PState) (c : N) : option PState :=
  match mode st with
  | MAfter =>
      if is_ws c then Some st
      else match stack st with
           | FArray acc :: rest =>
               if c =? 44 then Some {| stack := stack st; mode := MValue false |}
               else if c =? 93 then deliver (JArray (rev acc)) rest
               else None
           | FObject acc None :: rest =>
               if c =? 44 then Some {| stack := stack st; mode := MKey false |}
               else if c =? 125 then deliver (JObject (rev acc)) rest
               else None
           | _ => None
           end
  | MEnd _ => if is_ws c then Some st else None
  | _ => None
  end.

Definition end_string (is_key : bool) (s : jsstring) (stk : list Frame)
  : option PState :=
  if is_key then
    match stk with
    | FObject acc None :: rest =>
        Some {| stack := FObject acc (Some s) :: rest; mode := MColon |}
    | _ => None
    end
  else deliver (JString s) stk.

Definition step (st : PState) (c : N) : option PState :=
  let stk := stack st in
  match mode st with
  | MValue may_close =>
      if is_ws c then Some st
      else if c =? 123 then
        Some {| stack := FObject [] None :: stk; mode := MKey true |}
      else if c =? 91 then
        Some {| stack := FArray [] :: stk; mode := MValue true |}
      else if c =? 93 then
        match may_close, stk with
        | true, FArray _ :: rest => deliver (JArray []) rest
        | _, _ => None
        end
      else if c =? 34 then Some {| stack := stk; mode := MString false [] |}
      else if c =? 116 then
        Some {| stack := stk; mode := MLiteral (str "rue") (JBool true) |}
      else if c =? 102 then
        Some {| stack := stk; mode := MLiteral (str "alse") (JBool false) |}
      else if c =? 110 then
        Some {| stack := stk; mode := MLiteral (str "ull") JNull |}
      else n ← num_start c; Some {| stack := stk; mode := MNumber n |}
  | MKey may_close =>
      if is_ws c then Some st
      else if c =? 34 then Some {| stack := stk; mode := MString true [] |}
      else if c =? 125 then
        match may_close, stk with
        | true, FObject _ _ :: rest => deliver (JObject []) rest
        | _, _ => None
        end
      else None
  | MColon =>
      if is_ws c then Some st
      else if c =? 58 then Some {| stack := stk; mode := MValue false |}
      else None
  | MAfter | MEnd _ => step_between st c
  | MString k acc =>
      if c =? 34 then end_string k (rev acc) stk
      else if c =? 92 then Some {| stack := stk; mode := MEscape k acc |}
      else if c <? 32 then None
      else Some {| stack := stk; mode := MString k (c :: acc) |}
  | MEscape k acc =>
      let put x := Some {| stack := stk; mode := MString k (x :: acc) |} in
      if (c =? 34) || (c =? 92) || (c =? 47) then put c
      else if c =? 98 then put 8
      else if c =? 102 then put 12
      else if c =? 110 then put 10
      else if c =? 114 then put 13
      else if c =? 116 then put 9
      else if c =? 117 then Some {| stack := stk; mode := MUnicode k acc 0 0 |}
      else None
  | MUnicode k acc count val =>
      h ← hex_of c;
      let val' := val * 16 + h in
      if (count =? 3)%nat
      then Some {| stack := stk; mode := MString k (val' :: acc) |}
      else Some {| stack := stk; mode := MUnicode k acc (S count) val' |}
  | MNumber n =>
      match num_step n c with
      | Some n' => Some {| stack := stk; mode := MNumber n' |}
      | None => v ← num_value n; st' ← deliver v stk; step_between st' c
      end
  | MLiteral rest v =>
      match rest with
      | x :: rest' =>
          if c =? x then
            match rest' with
            | [] => deliver v stk
            | _ :: _ => Some {| stack := stk; mode := MLiteral rest' v |}
            end
          else None
      | [] => None
      end
  end.

Fixpoint steps (st : PState) (s : jsstring) : option PState :=
  match s with
  | [] => Some st
  | c :: r => st' ← step st c; steps st' r
  end.

(** At the end of the text exactly one complete value must have been read. *)
Definition finish (st : PState) : option JSON :=
  match mode st with
  | MEnd v => Some v
  | MNumber n =>
      match stack st with
      | [] => num_value n
      | _ :: _ => None
      end
  | _ => None
  end.

Definition init : PState := {| stack := []; mode := MValue false |}.

End Parser.

(** [JSON.parse(text)]: [None] stands for the [SyntaxError] it throws. *)
Definition JSON_parse (text : jsstring) : option JSON :=
  st ← Parser.steps Parser.init text; Parser.finish st.

(** ** JavaScript values outside the declared types

    [parsed as SSEMessage] checks nothing: at run time a frame is whatever
    [JSON.parse] returned. This section has the conversions and comparisons
    that [run] applies to such values. [undefined] is [None]. *)

(** *** Numbers as doubles *)

(** The magnitude of a double: zero, [f * 2 ^ k], or infinity. *)
Inductive Double :=
| DZero
| DFinite (f k : Z)
| DInfinity.

(** [num / den >= 2 ^ l] *)
Definition ge_pow2 (num den l : Z) : bool :=
  (den * 2 ^ Z.max l 0 <=? num * 2 ^ Z.max (- l) 0)%Z.

Definition round_half_even (q r d : Z) : Z :=
  if (2 * r <? d)%Z then q
  else if (d <? 2 * r)%Z then (q + 1)%Z
  else if Z.even q then q else (q + 1)%Z.

(** The double nearest to [m * 10 ^ e], ties to even: a significand below
    [2 ^ 53] at an exponent not below [-1074]. *)
Definition to_double (m : N) (e : Z) : Double :=
  if m =? 0 then DZero
  else
    let num := (Z.of_N m * 10 ^ Z.max e 0)%Z in
    let den := (10 ^ Z.max (- e) 0)%Z in
    let l := (Z.log2 num - Z.log2 den)%Z in
    let lg := if ge_pow2 num den l then l else (l - 1)%Z in
    let k := Z.max (lg - 52) (-1074) in
    let n' := (num * 2 ^ Z.max (- k) 0)%Z in
    let d' := (den * 2 ^ Z.max k 0)%Z in
    let q := round_half_even (n' / d') (n' mod d') d' in
    if (q =? 0)%Z then DZero
    else if (q =? 2 ^ 53)%Z then
      if (971 <? k + 1)%Z then DInfinity else DFinite (2 ^ 52) (k + 1)
    else if (971 <? k)%Z then DInfinity else DFinite q k.

Definition Double_eqb (a b : Double) : bool :=
  match a, b with
  | DZero, DZero => true
  | DFinite f k, DFinite g j => (f =? g)%Z && (k =? j)%Z
  | DInfinity, DInfinity => true
  | _, _ => false
  end.

(** [num / den < 10 ^ n] *)
Definition lt_pow10 (num den n : Z) : bool :=
  (num * 10 ^ Z.max (- n) 0 <? den * 10 ^ Z.max n 0)%Z.

Fixpoint first_pow10_above (fuel : nat) (num den n : Z) : Z :=
  match fuel with
  | O => n
  | S fuel' =>
      if lt_pow10 num den n then n
      else first_pow10_above fuel' num den (n + 1)%Z
  end.

(** The [n] with [10 ^ (n - 1) <= f * 2 ^ k < 10 ^ n], searched upwards from
    an estimate that lies below it. *)
Definition decimal_exponent (f k : Z) : Z :=
  let num := (f * 2 ^ Z.max k 0)%Z in
  let den := (2 ^ Z.max (- k) 0)%Z in
  let a := (Z.log2 num - Z.log2 den)%Z in
  first_pow10_above 8 num den (a * 30103 / 100000 - 2)%Z.

(** A decimal of [nd] digits that rounds to the double [f * 2 ^ k], the
    nearest one when there are two: its digits and its decimal exponent. *)
Definition digits_of_length (f k n nd : Z) : option (Z * Z) :=
  let num := (f * 2 ^ Z.max k 0 * 10 ^ Z.max (nd - n) 0)%Z in
  let den := (2 ^ Z.max (- k) 0 * 10 ^ Z.max (n - nd) 0)%Z in
  let s := (num / den)%Z in
  let r := (num mod den)%Z in
  let ok c := Double_eqb (to_double (Z.to_N c) (n - nd)) (DFinite f k) in
  let pick c :=
    if (c =? 10 ^ nd)%Z then Some (1%Z, (n + 1)%Z) else Some (c, n) in
  if ok s && ok (s + 1)%Z then pick (round_half_even s r den)
  else if ok s then pick s
  else if ok (s + 1)%Z then pick (s + 1)%Z
  else None.

(** The shortest such decimal; seventeen digits always suffice. *)
Fixpoint shortest_digits (fuel : nat) (f k n nd : Z) : Z * Z :=
  match fuel with
  | O => (f, n)
  | S fuel' =>
      match digits_of_length f k n nd with
      | Some r => r
      | None => shortest_digits fuel' f k n (nd + 1)%Z
      end
  end.

Definition zeros (n : Z) : jsstring := replicate (Z.to_nat n) 48.

(** The layout of [Number::toString] for the digits [s] of the value
    [0.s * 10 ^ n]. *)
Definition format_digits (s n : Z) : jsstring :=
  let ds := N_to_jsstring (Z.to_N s) in
  let k := Z.of_nat (length ds) in
  if (k <=? n)%Z && (n <=? 21)%Z then ds ++ zeros (n - k)
  else if (0 <? n)%Z && (n <=? 21)%Z then
    take (Z.to_nat n) ds ++ [46] ++ drop (Z.to_nat n) ds
  else if (-6 <? n)%Z && (n <=? 0)%Z then [48; 46] ++ zeros (- n) ++ ds
  else
    let e := (n - 1)%Z in
    let es := (if (e <? 0)%Z then [45] else [43])
              ++ N_to_jsstring (Z.to_N (Z.abs e)) in
    match ds with
    | [] => []
    | [d] => [d] ++ [101] ++ es
    | d :: rest => [d] ++ [46] ++ rest ++ [101] ++ es
    end.

(** [String(x)] for the number written [± m * 10 ^ e]. *)
Definition Number_toString (neg : bool) (m : N) (e : Z) : jsstring :=
  match to_double m e with
  | DZero => [48]
  | DInfinity => (if neg then [45] else []) ++ str "Infinity"
  | DFinite f k =>
      let '(s, n) := shortest_digits 17 f k (decimal_exponent f k) 1 in
      (if neg then [45] else []) ++ format_digits s n
  end.

(** *** Property reads and conversions *)

(** [v.k] for a parsed value [v] other than [null], and a key that no
    prototype defines: the own member of an object, [undefined] on any other
    value. *)
Definition get_prop (v : JSON) (k : string) : option JSON :=
  match v with
  | JObject ms => get_member (str k) ms
  | _ => None
  end.

(** [ToString], [None] when it throws a [TypeError]. An array is the join of
    its elements with commas, [null] counting as empty; a parsed object is
    ["[object Object]"], unless it has a member [toString] of its own, which
    is not callable and leaves no conversion. *)
Fixpoint ToString (v : JSON) : option jsstring :=
  match v with
  | JNull => Some (str "null")
  | JBool true => Some (str "true")
  | JBool false => Some (str "false")
  | JNumber neg m e => Some (Number_toString neg m e)
  | JString s => Some s
  | JArray items =>
      (fix elements (l : list JSON) : option jsstring :=
         match l with
         | [] => Some []
         | x :: rest =>
             s ← match x with JNull => Some [] | _ => ToString x end;
             match rest with
             | [] => Some s
             | _ :: _ => t ← elements rest; Some (s ++ [44] ++ t)
             end
         end) items
  | JObject ms =>
      match get_member (str "toString") ms with
      | Some _ => None
      | None => Some (str "[object Object]")
      end
  end.

(** The numeric value of a string, as far as [> 0] needs it. *)
Inductive StringNumber :=
| SNaN
| SInfinity (neg : bool)
| SDecimal (neg : bool) (m : N) (e : Z).

(** The digits of base [b] at the head of a string: their value, how many
    they are, and what follows. *)
Fixpoint take_digits (b : N) (s : jsstring) (acc : N) (count : nat)
  : N * nat * jsstring :=
  match s with
  | c :: rest =>
      match Parser.hex_of c with
      | Some d =>
          if d <? b then take_digits b rest (acc * b + d) (S count)
          else (acc, count, s)
      | None => (acc, count, s)
      end
  | [] => (acc, count, [])
  end.

(** [NonDecimalIntegerLiteral] after its prefix. *)
Definition non_decimal (b : N) (s : jsstring) : StringNumber :=
  match take_digits b s 0 0 with
  | (v, S _, []) => SDecimal false v 0
  | _ => SNaN
  end.

(** [ExponentPart], or nothing, up to the end of the string. *)
Definition exponent_part (s : jsstring) : option Z :=
  match s with
  | [] => Some 0%Z
  | c :: rest =>
      if (c =? 101) || (c =? 69) then
        let '(neg, digits) :=
          match rest with
          | 45 :: r => (true, r)
          | 43 :: r => (false, r)
          | _ => (false, rest)
          end in
        match take_digits 10 digits 0 0 with
        | (v, S _, []) => Some (if neg then - Z.of_N v else Z.of_N v)%Z
        | _ => None
        end
      else None
  end.

(** [StrUnsignedDecimalLiteral] *)
Definition unsigned_decimal (neg : bool) (s : jsstring) : StringNumber :=
  if str_eqb s (str "Infinity") then SInfinity neg
  else
    let '(ip, ni, after_int) := take_digits 10 s 0 0 in
    let '(m, nf, after_frac) :=
      match after_int with
      | 46 :: r => take_digits 10 r ip 0
      | _ => (ip, O, after_int)
      end in
    match ni, nf with
    | O, O => SNaN
    | _, _ =>
        match exponent_part after_frac with
        | Some e => SDecimal neg m (e - Z.of_nat nf)
        | None => SNaN
        end
    end.

(** [StringToNumber] *)
Definition string_to_number (s : jsstring) : StringNumber :=
  match trim s with
  | [] => SDecimal false 0 0
  | 48 :: 120 :: r | 48 :: 88 :: r => non_decimal 16 r
  | 48 :: 111 :: r | 48 :: 79 :: r => non_decimal 8 r
  | 48 :: 98 :: r | 48 :: 66 :: r => non_decimal 2 r
  | 43 :: r => unsigned_decimal false r
  | 45 :: r => unsigned_decimal true r
  | t => unsigned_decimal false t
  end.

Definition positive_number (neg : bool) (m : N) (e : Z) : bool :=
  negb neg && negb (Double_eqb (to_double m e) DZero).

(** [w > 0], [None] when the conversion of [w] throws. *)
Definition gt_zero (w : option JSON) : option bool :=
  let of_string s :=
    match string_to_number s with
    | SNaN => false
    | SInfinity neg => negb neg
    | SDecimal neg m e => positive_number neg m e
    end in
  match w with
  | None => Some false
  | Some JNull => Some false
  | Some (JBool b) => Some b
  | Some (JNumber neg m e) => Some (positive_number neg m e)
  | Some (JString s) => Some (of_string s)
  | Some v => s ← ToString v; Some (of_string s)
  end.

(** [a === b] for a stored value [a] and a value [b] of a later frame:
    strings, booleans and [null] by value, numbers as doubles, objects and
    arrays never, since the two come from different calls of [JSON.parse]. *)
Definition strict_equal (a : option JSON) (b : JSON) : bool :=
  match a, b with
  | Some (JString x), JString y => str_eqb x y
  | Some (JBool x), JBool y => Bool.eqb x y
  | Some JNull, JNull => true
  | Some (JNumber n1 m1 e1), JNumber n2 m2 e2 =>
      let d1 := to_double m1 e1 in
      let d2 := to_double m2 e2 in
      Double_eqb d1 d2 && (Double_eqb d1 DZero || Bool.eqb n1 n2)
  | _, _ => false
  end.

(** ** [src/app/utils.ts] *)

(** The record [{ type: "done" }]. *)
Definition done_record : JSON := JObject [(str "type", JString (str "done"))].

(** [parseSSEData(line)]; the result [null] is [JNull]. *)
Definition parseSSEData (line : jsstring) : JSON :=
  let trimmed := trim line in
  if negb (nonempty trimmed) || negb (startsWith trimmed (str "data: "))
  then JNull
  else
    let data := slice 6 trimmed in
    if str_eqb data (str "[DONE]") then done_record
    else match JSON_parse data with
         | Some v => v
         | None => JNull
         end.

(** Thrown values. [JSError name message] is an [Error] object with these
    properties; [SyntaxError] is what [JSON.parse] throws. *)
Inductive Exn :=
| JSError (name message : jsstring)
| SyntaxError.

Definition exn_name (e : Exn) : jsstring :=
  match e with
  | JSError n _ => n
  | SyntaxError => str "SyntaxError"
  end.

(** [isAbortError(error)] *)
Definition isAbortError (e : Exn) : bool := str_eqb (exn_name e) (str "AbortError").

(** ** The Frame Decoder: the line buffer of [run] with [parseSSEData] *)

(** [lines.pop()]: the array without its last element, and that element. *)
Definition pop (lines : list jsstring) : list jsstring * jsstring :=
  (List.removelast lines, List.last lines []).

(** The events of a batch of complete lines: [if (!parsed) continue]. *)
Fixpoint decode_lines (lines : list jsstring) : list JSON :=
  match lines with
  | [] => []
  | line :: rest =>
      let parsed := parseSSEData line in
      if truthy parsed then parsed :: decode_lines rest else decode_lines rest
  end.

(** One chunk: [buffer += chunk; lines = buffer.split("\n");
    buffer = lines.pop() || ""], then the events of [lines]. *)
Definition feed (buffer chunk : jsstring) : list JSON * jsstring :=
  let '(lines, held) := pop (split_lines (buffer ++ chunk)) in
  (decode_lines lines, held).

(** All events of a chunk sequence, from a given buffer. *)
Fixpoint decode_from (buffer : jsstring) (chunks : list jsstring) : list JSON :=
  match chunks with
  | [] => []
  | chunk :: rest =>
      let '(events, buffer') := feed buffer chunk in
      events ++ decode_from buffer' rest
  end.

(** A fresh decoder starts with [let buffer = ""]. *)
Definition decode_chunks (chunks : list jsstring) : list JSON :=
  decode_from [] chunks.

(** ** [types.ts] *)

Inductive MsgType :=
| T_content | T_thinking | T_tool_calls | T_tool_start
| T_tool_result | T_tool_error | T_error | T_done.

(** [ToolCallData]. [arguments] is optional here because [run] reads it as
    [tc.function.arguments || "{}"]. *)
Record ToolFunction := {
  fn_name : jsstring;
  fn_arguments : option jsstring;
}.

Record ToolCallData := {
  tc_id : jsstring;
  tc_function : ToolFunction;
}.

Record SSEMessage := {
  msg_type : MsgType;
  msg_text : option jsstring;
  msg_tool_calls : option (list ToolCallData);
  msg_tool_name : option jsstring;
  msg_args : option JSON;
  msg_result : option jsstring;
  msg_content : option jsstring;
  msg_error : option jsstring;
}.

(** Truth value of an optional string field: absent and [""] are falsy. *)
Definition present (o : option jsstring) : bool :=
  match o with
  | Some s => nonempty s
  | None => false
  end.

(** [o || d] for an optional string. *)
Definition or_default (o : option jsstring) (d : jsstring) : jsstring :=
  match o with
  | Some (c :: s) => c :: s
  | _ => d
  end.

(** *** [parsed as SSEMessage]

    The cast is unchecked in the source. [as_SSEMessage] recognises the
    parsed values that have the declared shape and reads them field by field;
    it is not part of [run], which handles every parsed value (see
    [Untyped.handle_value] below), and serves to relate the two. *)

Definition msg_type_of (s : jsstring) : option MsgType :=
  if str_eqb s (str "content") then Some T_content
  else if str_eqb s (str "thinking") then Some T_thinking
  else if str_eqb s (str "tool_calls") then Some T_tool_calls
  else if str_eqb s (str "tool_start") then Some T_tool_start
  else if str_eqb s (str "tool_result") then Some T_tool_result
  else if str_eqb s (str "tool_error") then Some T_tool_error
  else if str_eqb s (str "error") then Some T_error
  else if str_eqb s (str "done") then Some T_done
  else None.

(** An optional string property: [Some None] when absent. *)
Definition opt_string_field (k : string) (ms : list (jsstring * JSON))
  : option (option jsstring) :=
  match get_member (str k) ms with
  | None => Some None
  | Some (JString s) => Some (Some s)
  | Some _ => None
  end.

Definition tool_call_of (v : JSON) : option ToolCallData :=
  match v with
  | JObject ms =>
      match get_member (str "id") ms, get_member (str "function") ms with
      | Some (JString i), Some (JObject fs) =>
          match get_member (str "name") fs with
          | Some (JString n) =>
              a ← opt_string_field "arguments" fs;
              Some {| tc_id := i;
                      tc_function := {| fn_name := n; fn_arguments := a |} |}
          | _ => None
          end
      | _, _ => None
      end
  | _ => None
  end.

Fixpoint tool_calls_of (vs : list JSON) : option (list ToolCallData) :=
  match vs with
  | [] => Some []
  | v :: r => tc ← tool_call_of v; tcs ← tool_calls_of r; Some (tc :: tcs)
  end.

Definition as_SSEMessage (parsed : JSON) : option SSEMessage :=
  match parsed with
  | JObject ms =>
      match get_member (str "type") ms with
      | Some (JString t) =>
          ty ← msg_type_of t;
          text ← opt_string_field "text" ms;
          calls ← match get_member (str "tool_calls") ms with
                  | None => Some None
                  | Some (JArray vs) => Some <$> tool_calls_of vs
                  | Some _ => None
                  end;
          tool_name ← opt_string_field "tool_name" ms;
          result ← opt_string_field "result" ms;
          content ← opt_string_field "content" ms;
          error ← opt_string_field "error" ms;
          Some {| msg_type := ty; msg_text := text; msg_tool_calls := calls;
                  msg_tool_name := tool_name;
                  msg_args := get_member (str "args") ms;
                  msg_result := result; msg_content := content;
                  msg_error := error |}
      | _ => None
      end
  | _ => None
  end.

(** ** [MyRuntimeProvider.tsx]: [createModelAdapter(...).run]

    First the body of the loop with the types the source declares: an event
    is an [SSEMessage], a part has string fields. *)

(** [ThreadAssistantContentPart], in the two shapes [run] builds: a text part
    and a tool-call part, whose [result] is absent until it is assigned. *)
Inductive ContentPart :=
| TextPart (text : jsstring)
| ToolCallPart (toolCallId toolName : jsstring) (args : JSON)
    (argsText : jsstring) (result : option jsstring).

(** The variables of [run] that outlive one event. *)
Record State := {
  contentParts : list ContentPart;
  currentTextIndex : Z;
  toolCallsIndex : Z;
}.

Definition initial_state : State :=
  {| contentParts := []; currentTextIndex := -1; toolCallsIndex := -1 |}.

(** [parts[i]], [undefined] out of range. *)
Definition at_index (parts : list ContentPart) (i : Z) : option ContentPart :=
  if (i <? 0)%Z then None else parts !! Z.to_nat i.

(** The text of the part that [case "content"] appends to: [None] when
    [currentTextIndex === -1 || !contentParts[currentTextIndex] ||
    contentParts[currentTextIndex].type !== "text"]. *)
Definition open_text (st : State) : option jsstring :=
  if (currentTextIndex st =? -1)%Z then None
  else match at_index (contentParts st) (currentTextIndex st) with
       | Some (TextPart t) => Some t
       | Some (ToolCallPart _ _ _ _ _) => None
       | None => None
       end.

(** [case "content"], under [if (message.text)]. *)
Definition on_content (text : jsstring) (st : State) : State :=
  match open_text st with
  | None =>
      {| contentParts := contentParts st ++ [TextPart text];
         currentTextIndex := Z.of_nat (length (contentParts st));
         toolCallsIndex := toolCallsIndex st |}
  | Some t =>
      {| contentParts :=
           <[Z.to_nat (currentTextIndex st) := TextPart (t ++ text)]>
             (contentParts st);
         currentTextIndex := currentTextIndex st;
         toolCallsIndex := toolCallsIndex st |}
  end.

(** [tc.function.arguments || "{}"] *)
Definition raw_arguments (tc : ToolCallData) : jsstring :=
  or_default (fn_arguments (tc_function tc)) (str "{}").

(** The part pushed for one announced call; [None] when [JSON.parse]
    throws. *)
Definition tool_call_part (tc : ToolCallData) : option ContentPart :=
  parsed ← JSON_parse (raw_arguments tc);
  Some (ToolCallPart (tc_id tc) (fn_name (tc_function tc)) parsed
          (raw_arguments tc) None).

(** [for (const tc of message.tool_calls) contentParts.push(...)]: the parts
    after the loop, and the exception that ended it early, if any. *)
Fixpoint push_tool_calls (tcs : list ToolCallData) (parts : list ContentPart)
  : list ContentPart * option Exn :=
  match tcs with
  | [] => (parts, None)
  | tc :: rest =>
      match tool_call_part tc with
      | Some p => push_tool_calls rest (parts ++ [p])
      | None => (parts, Some SyntaxError)
      end
  end.

(** The loop of [case "tool_result"]: the first tool-call part of that name
    gets the result, then [break]. *)
Fixpoint set_result (name res : jsstring) (parts : list ContentPart)
  : list ContentPart :=
  match parts with
  | [] => []
  | TextPart t :: rest => TextPart t :: set_result name res rest
  | ToolCallPart i n a raw r :: rest =>
      if str_eqb n name then ToolCallPart i n a raw (Some res) :: rest
      else ToolCallPart i n a raw r :: set_result name res rest
  end.

(** The text of the notice of [case "tool_error"]: U+26A0 U+FE0F, then
    [" Tool Error: "], the message and two line feeds. *)
Definition tool_error_text (message : jsstring) : jsstring :=
  [9888; 65039] ++ str " Tool Error: " ++ message ++ LF ++ LF.

(** How the [switch] statement is left. *)
Inductive Completion :=
| Normal
| Throw (e : Exn)
| Return.

Definition with_parts (parts : list ContentPart) (st : State) : State :=
  {| contentParts := parts; currentTextIndex := currentTextIndex st;
     toolCallsIndex := toolCallsIndex st |}.

(** The [switch (message.type)] of [run], with the state it leaves behind. *)
Definition handle_message (m : SSEMessage) (st : State) : Completion * State :=
  match msg_type m with
  | T_thinking => (Normal, st)
  | T_content =>
      match msg_text m with
      | Some (c :: text) => (Normal, on_content (c :: text) st)
      | _ => (Normal, st)
      end
  | T_tool_calls =>
      match msg_tool_calls m with
      | Some (tc :: tcs) =>
          let start := Z.of_nat (length (contentParts st)) in
          match push_tool_calls (tc :: tcs) (contentParts st) with
          | (parts, None) =>
              (Normal, {| contentParts := parts; currentTextIndex := -1;
                          toolCallsIndex := start |})
          | (parts, Some e) =>
              (Throw e, {| contentParts := parts;
                           currentTextIndex := currentTextIndex st;
                           toolCallsIndex := start |})
          end
      | _ => (Normal, st)
      end
  | T_tool_start => (Normal, st)
  | T_tool_result =>
      match msg_tool_name m, msg_result m with
      | Some (c :: name), Some (d :: res) =>
          (Normal, with_parts (set_result (c :: name) (d :: res) (contentParts st)) st)
      | _, _ => (Normal, st)
      end
  | T_tool_error =>
      match msg_error m with
      | Some (c :: e) =>
          (Normal, with_parts (contentParts st ++ [TextPart (tool_error_text (c :: e))]) st)
      | _ => (Normal, st)
      end
  | T_error =>
      (Throw (JSError (str "Error") (or_default (msg_error m) (str "Stream error"))), st)
  | T_done => (Return, st)
  end.

(** What the consumer receives from one [yield]. The array is copied but the
    part objects are shared with [contentParts] and change under later events;
    a snapshot is recorded with the values its parts have when it is
    yielded. *)
Definition Snapshot := list ContentPart.

(** [if (contentParts.length > 0) yield { content: [...contentParts] }] *)
Definition yield_parts (st : State) : list Snapshot :=
  match contentParts st with
  | [] => []
  | _ :: _ => [contentParts st]
  end.

(** One event inside [try { ... } catch (e) { ... }]: what is yielded, and
    the state the loop goes on with, or [None] after [return]. The handler of
    the [catch] only logs, so a thrown exception ends the event and nothing
    more. *)
Definition process_message (m : SSEMessage) (st : State)
  : list Snapshot * option State :=
  match handle_message m st with
  | (Normal, st') => (yield_parts st', Some st')
  | (Throw _, st') => ([], Some st')
  | (Return, _) => ([], None)
  end.

(** The events of a turn, one after the other. *)
Fixpoint run_messages (ms : list SSEMessage) (st : State)
  : list Snapshot * option State :=
  match ms with
  | [] => ([], Some st)
  | m :: rest =>
      match process_message m st with
      | (ys, Some st') =>
          let '(ys', r) := run_messages rest st' in (ys ++ ys', r)
      | (ys, None) => (ys, None)
      end
  end.

(** The Turn Assembler on a whole event sequence: the snapshots of the
    events, and the final one when the events run out without [done]. *)
Definition assemble (ms : list SSEMessage) : list Snapshot :=
  match run_messages ms initial_state with
  | (ys, Some st) => ys ++ yield_parts st
  | (ys, None) => ys
  end.

(** ** [run] on the frames as they are at run time

    The same code on whatever [JSON.parse] returned. A field may hold any
    value: the tests [if (message.text)] and the like are [ToBoolean], the
    comparison of names is [===], the notice of a tool error and the argument
    of [JSON.parse] are converted with [ToString], and a property read on
    [null] or [undefined], a call of something that is not a function and an
    iteration over something that is not iterable throw a [TypeError], which
    the [catch] of the event swallows. *)

Module Untyped.

(** The objects that [run] pushes, with whatever the frame held: the id and
    the name of a call ([undefined] when the frame has none), the raw
    arguments, and the result once one is assigned. *)
Inductive Part :=
| Text (text : jsstring)
| ToolCall (toolCallId toolName : option JSON) (args : JSON) (argsText : JSON)
    (result : option JSON).

Record State := {
  contentParts : list Part;
  currentTextIndex : Z;
  toolCallsIndex : Z;
}.

Definition initial_state : State :=
  {| contentParts := []; currentTextIndex := -1; toolCallsIndex := -1 |}.

Definition at_index (parts : list Part) (i : Z) : option Part :=
  if (i <? 0)%Z then None else parts !! Z.to_nat i.

(** As [open_text] above. *)
Definition open_text (st : State) : option jsstring :=
  if (currentTextIndex st =? -1)%Z then None
  else match at_index (contentParts st) (currentTextIndex st) with
       | Some (Text t) => Some t
       | Some (ToolCall _ _ _ _ _) => None
       | None => None
       end.

Definition on_content (text : jsstring) (st : State) : State :=
  match open_text st with
  | None =>
      {| contentParts := contentParts st ++ [Text text];
         currentTextIndex := Z.of_nat (length (contentParts st));
         toolCallsIndex := toolCallsIndex st |}
  | Some t =>
      {| contentParts :=
           <[Z.to_nat (currentTextIndex st) := Text (t ++ text)]>
             (contentParts st);
         currentTextIndex := currentTextIndex st;
         toolCallsIndex := toolCallsIndex st |}
  end.

(** [tc.function.arguments || "{}"] *)
Definition raw_arguments (fn : JSON) : JSON :=
  match get_prop fn "arguments" with
  | Some a => if truthy a then a else JString (str "{}")
  | None => JString (str "{}")
  end.

(** The object literal pushed for one element [tc] of the array; [None]
    when its evaluation throws: [tc] is [null], [tc.function] is [null] or
    [undefined], the raw arguments have no string conversion, or
    [JSON.parse] rejects them. *)
Definition tool_call_part (tc : JSON) : option Part :=
  match tc with
  | JNull => None
  | _ =>
      match get_prop tc "function" with
      | None | Some JNull => None
      | Some fn =>
          text ← ToString (raw_arguments fn);
          parsed ← JSON_parse text;
          Some (ToolCall (get_prop tc "id") (get_prop fn "name") parsed
                  (raw_arguments fn) None)
      end
  end.

(** The [for ... of] loop over an array: the parts after it, and whether it
    ran to its end. *)
Fixpoint push_tool_calls (tcs : list JSON) (parts : list Part)
  : list Part * bool :=
  match tcs with
  | [] => (parts, true)
  | tc :: rest =>
      match tool_call_part tc with
      | Some p => push_tool_calls rest (parts ++ [p])
      | None => (parts, false)
      end
  end.

(** The loop of [case "tool_result"]. *)
Fixpoint set_result (name res : JSON) (parts : list Part) : list Part :=
  match parts with
  | [] => []
  | Text t :: rest => Text t :: set_result name res rest
  | ToolCall i n a raw r :: rest =>
      if strict_equal n name then ToolCall i n a raw (Some res) :: rest
      else ToolCall i n a raw r :: set_result name res rest
  end.

(** How the [switch] statement is left; what was thrown does not matter,
    the [catch] of the event only logs it. *)
Inductive Completion :=
| Normal
| Thrown
| Return.

Definition with_parts (parts : list Part) (st : State) : State :=
  {| contentParts := parts; currentTextIndex := currentTextIndex st;
     toolCallsIndex := toolCallsIndex st |}.

Definition with_toolCallsIndex (st : State) : State :=
  {| contentParts := contentParts st; currentTextIndex := currentTextIndex st;
     toolCallsIndex := Z.of_nat (length (contentParts st)) |}.

(** [case "tool_calls"] on a truthy [message.tool_calls]. *)
Definition on_tool_calls (calls : JSON) (st : State) : Completion * State :=
  match calls with
  | JArray [] => (Normal, st)
  | JArray (tc :: tcs) =>
      match push_tool_calls (tc :: tcs) (contentParts st) with
      | (parts, true) =>
          (Normal, {| contentParts := parts; currentTextIndex := -1;
                      toolCallsIndex := Z.of_nat (length (contentParts st)) |})
      | (parts, false) =>
          (Thrown, {| contentParts := parts;
                      currentTextIndex := currentTextIndex st;
                      toolCallsIndex := Z.of_nat (length (contentParts st)) |})
      end
  | JString [] => (Normal, st)
  | JString (_ :: _) =>
      (* a positive length, and the first character has no [function] *)
      (Thrown, with_toolCallsIndex st)
  | JObject ms =>
      (* the member [length], if any, decides; an object is not iterable *)
      match gt_zero (get_member (str "length") ms) with
      | Some true => (Thrown, with_toolCallsIndex st)
      | Some false => (Normal, st)
      | None => (Thrown, st)
      end
  | JNull | JBool _ | JNumber _ _ _ =>
      (* no [length]: [undefined > 0] is false *)
      (Normal, st)
  end.

(** The [switch (message.type)] of [run] on a truthy parsed value. *)
Definition handle_value (message : JSON) (st : State) : Completion * State :=
  match get_prop message "type" with
  | Some (JString t) =>
      match msg_type_of t with
      | Some T_thinking => (Normal, st)
      | Some T_content =>
          match get_prop message "text" with
          | Some (JString []) => (Normal, st)
          | Some (JString (c :: text)) => (Normal, on_content (c :: text) st)
          | Some v =>
              (* [v.substring] is not a function *)
              if truthy v then (Thrown, st) else (Normal, st)
          | None => (Normal, st)
          end
      | Some T_tool_calls =>
          match get_prop message "tool_calls" with
          | Some calls =>
              if truthy calls then on_tool_calls calls st else (Normal, st)
          | None => (Normal, st)
          end
      | Some T_tool_start => (Normal, st)
      | Some T_tool_result =>
          match get_prop message "tool_name", get_prop message "result" with
          | Some name, Some res =>
              if truthy name && truthy res
              then (Normal, with_parts (set_result name res (contentParts st)) st)
              else (Normal, st)
          | _, _ => (Normal, st)
          end
      | Some T_tool_error =>
          match get_prop message "error" with
          | Some e =>
              if truthy e then
                match ToString e with
                | Some s =>
                    (Normal,
                     with_parts (contentParts st ++ [Text (tool_error_text s)]) st)
                | None => (Thrown, st)
                end
              else (Normal, st)
          | None => (Normal, st)
          end
      | Some T_error => (Thrown, st)
      | Some T_done => (Return, st)
      | None => (Normal, st)
      end
  | _ => (Normal, st)
  end.

Definition Snapshot := list Part.

Definition yield_parts (st : State) : list Snapshot :=
  match contentParts st with
  | [] => []
  | _ :: _ => [contentParts st]
  end.

(** One decoded value inside [try { ... } catch (e) { ... }], as
    [process_message] above. *)
Definition process_value (message : JSON) (st : State)
  : list Snapshot * option State :=
  match handle_value message st with
  | (Normal, st') => (yield_parts st', Some st')
  | (Thrown, st') => ([], Some st')
  | (Return, _) => ([], None)
  end.

(** What a part may become later in the run: a text part grows at its end,
    a tool-call part keeps everything but its result. *)
Definition evolves (p q : Part) : Prop :=
  match p, q with
  | Text t, Text u => exists x, u = t ++ x
  | ToolCall i n a raw _, ToolCall i' n' a' raw' _ =>
      i = i' /\ n = n' /\ a = a' /\ raw = raw'
  | _, _ => False
  end.

(** A later list of parts: the earlier parts, each evolved and at its index,
    followed by new ones. *)
Definition extends (before after : list Part) : Prop :=
  exists kept added, after = kept ++ added /\ Forall2 evolves before kept.

(** The open-text index is [-1] or the index of a text part. *)
Definition index_valid (st : State) : Prop :=
  currentTextIndex st = (-1)%Z
  \/ exists t,
       (0 <= currentTextIndex st)%Z
       /\ contentParts st !! Z.to_nat (currentTextIndex st) = Some (Text t).

(** A part whose fields fit together: a text part has some text, and the
    [args] of a tool call are what [JSON.parse] makes of its [argsText]. *)
Definition coherent (p : Part) : Prop :=
  match p with
  | Text t => t <> []
  | ToolCall _ _ a raw _ =>
      exists text, ToString raw = Some text /\ JSON_parse text = Some a
  end.

End Untyped.

(** *** The generator as a whole *)

(** How a call of [run] ends. *)
Inductive Outcome :=
| Returns
| Throws (e : Exn).

Record RunResult := {
  yields : list Untyped.Snapshot;
  outcome : Outcome;
}.

(** The response body as [reader.read()] delivers it, each chunk already
    turned into text by [decoder.decode(value, { stream: true })]; after the
    chunks comes [done], or a rejected read. *)
Record Body := {
  chunks : list jsstring;
  failure : option Exn;
}.

(** What [await fetch(...)] gives. *)
Inductive Fetch :=
| Rejected (e : Exn)
| Response (ok : bool) (status : N) (statusText : jsstring) (body : option Body).

(** The outer [catch (error)]: an abort ends the generator silently, any
    other exception is thrown again. *)
Definition outer_catch (e : Exn) : Outcome :=
  if isAbortError e then Returns else Throws e.

Definition prepend (ys : list Untyped.Snapshot) (r : RunResult) : RunResult :=
  {| yields := ys ++ yields r; outcome := outcome r |}.

(** [for (const line of lines)]: what is yielded, and the state after the
    lines, or [None] after [return]. *)
Fixpoint run_lines (lines : list jsstring) (st : Untyped.State)
  : list Untyped.Snapshot * option Untyped.State :=
  match lines with
  | [] => ([], Some st)
  | line :: rest =>
      let parsed := parseSSEData line in
      if truthy parsed then
        match Untyped.process_value parsed st with
        | (ys, Some st') =>
            let '(ys', r) := run_lines rest st' in (ys ++ ys', r)
        | (ys, None) => (ys, None)
        end
      else run_lines rest st
  end.

(** [while (true) { const { done, value } = await reader.read(); ... }] and
    the final [yield]. *)
Fixpoint read_loop (cs : list jsstring) (fail : option Exn)
    (buffer : jsstring) (st : Untyped.State) : RunResult :=
  match cs with
  | [] =>
      match fail with
      | Some e => {| yields := []; outcome := outer_catch e |}
      | None => {| yields := Untyped.yield_parts st; outcome := Returns |}
      end
  | chunk :: rest =>
      let '(lines, held) := pop (split_lines (buffer ++ chunk)) in
      match run_lines lines st with
      | (ys, Some st') => prepend ys (read_loop rest fail held st')
      | (ys, None) => {| yields := ys; outcome := Returns |}
      end
  end.

(** [run({ messages, abortSignal })], as a function of what the transport
    answers. *)
Definition run (f : Fetch) : RunResult :=
  match f with
  | Rejected e => {| yields := []; outcome := outer_catch e |}
  | Response false status statusText _ =>
      {| yields := [];
         outcome := outer_catch
           (JSError (str "Error")
              (str "API error: " ++ N_to_jsstring status ++ str " " ++ statusText)) |}
  | Response true _ _ None =>
      {| yields := [];
         outcome := outer_catch (JSError (str "Error") (str "No response body")) |}
  | Response true _ _ (Some b) =>
      read_loop (chunks b) (failure b) [] Untyped.initial_state
  end.

(** *** The generator as decoder followed by assembler *)

(** The loop body of [run_lines] on the values the decoder gives. *)
Fixpoint run_values (vs : list JSON) (st : Untyped.State)
  : list Untyped.Snapshot * option Untyped.State :=
  match vs with
  | [] => ([], Some st)
  | v :: rest =>
      match Untyped.process_value v st with
      | (ys, Some st') =>
          let '(ys', r) := run_values rest st' in (ys ++ ys', r)
      | (ys, None) => (ys, None)
      end
  end.

(** How the generator ends once the body has been read: after [return] it
    has returned; otherwise a rejected read goes to the outer [catch], and
    the end of the body is followed by the final [yield]. *)
Definition conclude (fail : option Exn)
    (r : list Untyped.Snapshot * option Untyped.State) : RunResult :=
  match r with
  | (ys, None) => {| yields := ys; outcome := Returns |}
  | (ys, Some st) =>
      match fail with
      | Some e => {| yields := ys; outcome := outer_catch e |}
      | None => {| yields := ys ++ Untyped.yield_parts st; outcome := Returns |}
      end
  end.

(** *** The declared types inside the run-time values *)

(** A part with fields of the declared types, as the object it is. *)
Definition untyped_part (p : ContentPart) : Untyped.Part :=
  match p with
  | TextPart t => Untyped.Text t
  | ToolCallPart i n a raw r =>
      Untyped.ToolCall (Some (JString i)) (Some (JString n)) a (JString raw)
        (JString <$> r)
  end.

Definition untyped_state (st : State) : Untyped.State :=
  {| Untyped.contentParts := untyped_part <$> contentParts st;
     Untyped.currentTextIndex := currentTextIndex st;
     Untyped.toolCallsIndex := toolCallsIndex st |}.

Definition untyped_completion (c : Completion) : Untyped.Completion :=
  match c with
  | Normal => Untyped.Normal
  | Throw _ => Untyped.Thrown
  | Return => Untyped.Return
  end.

Definition untyped_snapshots (ys : list Snapshot) : list Untyped.Snapshot :=
  map (map untyped_part) ys.

(** A stream of frames of the declared types: its decoded values, cast one
    by one. *)
Definition declared (vs : list JSON) (ms : list SSEMessage) : Prop :=
  Forall2 (fun v m => as_SSEMessage v = Some m) vs ms.

(** ** The events of the specification, as wire records *)

Definition message (ty : MsgType) : SSEMessage :=
  {| msg_type := ty; msg_text := None; msg_tool_calls := None;
     msg_tool_name := None; msg_args := None; msg_result := None;
     msg_content := None; msg_error := None |}.

Definition ContentDelta (text : jsstring) : SSEMessage :=
  {| msg_type := T_content; msg_text := Some text; msg_tool_calls := None;
     msg_tool_name := None; msg_args := None; msg_result := None;
     msg_content := None; msg_error := None |}.

Definition ThinkingDelta (text : jsstring) : SSEMessage :=
  {| msg_type := T_thinking; msg_text := Some text; msg_tool_calls := None;
     msg_tool_name := None; msg_args := None; msg_result := None;
     msg_content := None; msg_error := None |}.

Definition ToolCallsAnnounced (calls : list ToolCallData) : SSEMessage :=
  {| msg_type := T_tool_calls; msg_text := None; msg_tool_calls := Some calls;
     msg_tool_name := None; msg_args := None; msg_result := None;
     msg_content := None; msg_error := None |}.

Definition ToolStarted : SSEMessage := message T_tool_start.

Definition ToolResult (toolName res : jsstring) : SSEMessage :=
  {| msg_type := T_tool_result; msg_text := None; msg_tool_calls := None;
     msg_tool_name := Some toolName; msg_args := None; msg_result := Some res;
     msg_content := None; msg_error := None |}.

Definition ToolError (msg : jsstring) : SSEMessage :=
  {| msg_type := T_tool_error; msg_text := None; msg_tool_calls := None;
     msg_tool_name := None; msg_args := None; msg_result := None;
     msg_content := None; msg_error := Some msg |}.

Definition StreamError (msg : jsstring) : SSEMessage :=
  {| msg_type := T_error; msg_text := None; msg_tool_calls := None;
     msg_tool_name := None; msg_args := None; msg_result := None;
     msg_content := None; msg_error := Some msg |}.

Definition StreamDone : SSEMessage := message T_done.

(** An announcement [{ id, function: { name, arguments } }]. *)
Definition announce (id name : jsstring) (arguments : option jsstring)
  : ToolCallData :=
  {| tc_id := id;
     tc_function := {| fn_name := name; fn_arguments := arguments |} |}.

(** ** Vocabulary of the statements *)

(** [part.type === "tool-call" && part.toolName === name] *)
Definition is_call_named (name : jsstring) (p : ContentPart) : bool :=
  match p with
  | TextPart _ => false
  | ToolCallPart _ n _ _ _ => str_eqb n name
  end.

(** [part.result = res] *)
Definition with_result (res : jsstring) (p : ContentPart) : ContentPart :=
  match p with
  | TextPart t => TextPart t
  | ToolCallPart i n a raw _ => ToolCallPart i n a raw (Some res)
  end.

(** Spec wording (section 4.2, ToolResult): the result goes to the first
    tool-call segment of that name _which has no result yet_. *)
Fixpoint set_result_unresolved (name res : jsstring) (parts : list ContentPart)
  : list ContentPart :=
  match parts with
  | [] => []
  | ToolCallPart i n a raw None :: rest =>
      if str_eqb n name then ToolCallPart i n a raw (Some res) :: rest
      else ToolCallPart i n a raw None :: set_result_unresolved name res rest
  | p :: rest => p :: set_result_unresolved name res rest
  end.

(** The effect of a tool result on the parts: the first tool-call part of
    that name, at the lowest index, takes the result and nothing else
    changes; without such a part nothing changes at all. *)
Definition first_named_takes_result (name res : jsstring)
    (before after : list ContentPart) : Prop :=
  (exists i p,
      before !! i = Some p
      /\ is_call_named name p = true
      /\ (forall j q, (j < i)%nat -> before !! j = Some q ->
                      is_call_named name q = false)
      /\ after = <[i := with_result res p]> before)
  \/ ((forall j q, before !! j = Some q -> is_call_named name q = false)
      /\ after = before).

(** The part that an announcement whose arguments parse is turned into. *)
Definition announced_part (tc : ToolCallData) (p : ContentPart) : Prop :=
  exists v,
    JSON_parse (raw_arguments tc) = Some v
    /\ p = ToolCallPart (tc_id tc) (fn_name (tc_function tc)) v
             (raw_arguments tc) None.

(** Every announcement of the batch carries arguments that parse. *)
Definition all_parse (calls : list ToolCallData) : Prop :=
  Forall (fun tc => is_Some (JSON_parse (raw_arguments tc))) calls.

(** Two calls of one tool, the first of them resolved. *)
Definition two_searches : list ContentPart :=
  [ToolCallPart (str "1") (str "search") (JObject []) (str "{}") (Some (str "R0"));
   ToolCallPart (str "2") (str "search") (JObject []) (str "{}") None].

(** A stream with an error frame followed by a content frame. *)
Definition error_then_content : jsstring :=
  wire "data: {'type':'error','error':'boom'}" ++ LF
  ++ wire "data: {'type':'content','text':'hi'}" ++ LF.

(** A stream in which one tool is called twice, each call announced and
    then answered before the next. *)
Definition search_twice : jsstring :=
  wire "data: {'type':'tool_calls','tool_calls':[{'id':'1','function':{'name':'search'}}]}" ++ LF
  ++ wire "data: {'type':'tool_result','tool_name':'search','result':'R0'}" ++ LF
  ++ wire "data: {'type':'tool_calls','tool_calls':[{'id':'2','function':{'name':'search'}}]}" ++ LF
  ++ wire "data: {'type':'tool_result','tool_name':'search','result':'R1'}" ++ LF.

(** ** [utils.ts]: [convertToApiMessages] *)

(** A content part of a [ThreadMessage], as far as [convertToApiMessages]
    reads it: its [type], and its [text] when it has one. *)
Record ThreadPart := {
  part_type : jsstring;
  part_text : option jsstring;
}.

Record ThreadMessage := {
  role : jsstring;
  content : list ThreadPart;
}.

(** [ApiMessage] of [types.ts]. *)
Record ApiMessage := {
  api_role : jsstring;
  api_content : jsstring;
}.

(** [items.join(sep)] *)
Fixpoint join (sep : jsstring) (items : list jsstring) : jsstring :=
  match items with
  | [] => []
  | [x] => x
  | x :: rest => x ++ sep ++ join sep rest
  end.

(** [c.type === "text"] *)
Definition is_text_part (c : ThreadPart) : bool :=
  str_eqb (part_type c) (str "text").

(** The strings that [join] receives: [.filter(...).map((c) => c.text)],
    where [join] renders a missing [text] as the empty string. *)
Definition message_texts (msg : ThreadMessage) : list jsstring :=
  map (fun c => default [] (part_text c)) (List.filter is_text_part (content msg)).

Definition convertToApiMessages (messages : list ThreadMessage)
  : list ApiMessage :=
  map (fun msg => {| api_role := role msg;
                     api_content := join LF (message_texts msg) |})
      messages.

(** ** [page.tsx] and [ToolTogglePanel]: the enabled tools *)

(** [list.includes(x)] *)
Definition includes (l : list jsstring) (x : jsstring) : bool :=
  existsb (fun y => str_eqb y x) l.

(** The updater that [handleToolToggle(toolId, enabled)] passes to
    [setEnabledTools]. *)
Definition handleToolToggle (toolId : jsstring) (enabled : bool)
    (prev : list jsstring) : list jsstring :=
  if enabled then
    if includes prev toolId then prev else prev ++ [toolId]
  else List.filter (fun id => negb (str_eqb id toolId)) prev.


(** [l.length > 0] *)
Definition nonempty_list (l : list jsstring) : bool :=
  match l with [] => false | _ :: _ => true end.

(** The object that [run] serialises as the body of the request. *)
Record ChatRequest := {
  req_messages : list ApiMessage;
  req_stream : bool;
  req_tools_enabled : bool;
  req_enabled_tools : list jsstring;
}.

Definition request_body (enabledTools : list jsstring)
    (messages : list ThreadMessage) : ChatRequest :=
  {| req_messages := convertToApiMessages messages;
     req_stream := true;
     req_tools_enabled := nonempty_list enabledTools;
     req_enabled_tools := enabledTools |}.

(** ** Vocabulary of the invariants *)

(** What a part may become later in the turn: a text part grows at its end,
    a tool-call part keeps everything but its result. *)
Definition evolves (p q : ContentPart) : Prop :=
  match p, q with
  | TextPart t, TextPart u => exists x, u = t ++ x
  | ToolCallPart i n a raw _, ToolCallPart i' n' a' raw' _ =>
      i = i' /\ n = n' /\ a = a' /\ raw = raw'
  | _, _ => False
  end.

(** A later list of parts: the earlier parts, each evolved and at its index,
    followed by new ones. *)
Definition extends (before after : list ContentPart) : Prop :=
  exists kept added, after = kept ++ added /\ Forall2 evolves before kept.

(** The open-text index is [-1] or the index of a text part. *)
Definition index_valid (st : State) : Prop :=
  currentTextIndex st = (-1)%Z
  \/ exists t,
       (0 <= currentTextIndex st)%Z
       /\ contentParts st !! Z.to_nat (currentTextIndex st) = Some (TextPart t).

(** Only white space, in the sense of [trim]. *)
Definition blank (s : jsstring) : Prop :=
  Forall (fun c => is_js_space c = true) s.

(** * Properties *)

(** ** Strings *)

Lemma str_eqb_eq (a b : jsstring) : str_eqb a b = true <-> a = b.
Proof.
  revert b. induction a as [|x a IH]; intros [|y b]; simpl; split;
    try congruence; try reflexivity.
  - intros [Hxy Hab]%andb_prop. apply N.eqb_eq in Hxy. apply IH in Hab.
    congruence.
  - intros [= -> ->]. rewrite N.eqb_refl. simpl. by apply IH.
Qed.

Lemma str_eqb_neq (a b : jsstring) : str_eqb a b = false <-> a <> b.
Proof.
  rewrite <- str_eqb_eq. destruct (str_eqb a b); split; congruence.
Qed.

Lemma str_eqb_refl (a : jsstring) : str_eqb a a = true.
Proof. by apply str_eqb_eq. Qed.

Lemma startsWith_app (p s : jsstring) : startsWith (p ++ s) p = true.
Proof.
  induction p as [|x p IH]; simpl; [done|]. rewrite N.eqb_refl. exact IH.
Qed.

Lemma startsWith_app_l (a b p : jsstring) :
  startsWith a p = true -> startsWith (a ++ b) p = true.
Proof.
  revert a. induction p as [|x p IH]; intros [|y a]; simpl; try done.
  intros [-> Hp]%andb_prop. simpl. by apply IH.
Qed.

(** [trimStart] removes a prefix. *)
Lemma trimStart_suffix (s : jsstring) : exists pre, s = pre ++ trimStart s.
Proof.
  induction s as [|c s [pre IH]]; simpl.
  - by exists [].
  - destruct (is_js_space c).
    + exists (c :: pre). simpl. by rewrite <- IH.
    + by exists [].
Qed.

(** [trimEnd] removes a suffix. *)
Lemma trimEnd_prefix (s : jsstring) : exists post, s = trimEnd s ++ post.
Proof.
  unfold trimEnd. destruct (trimStart_suffix (rev s)) as [pre H].
  exists (rev pre). rewrite <- rev_app_distr, <- H. by rewrite rev_involutive.
Qed.

Lemma trimStart_app (a b : jsstring) :
  trimStart (a ++ b) =
    match trimStart a with
    | [] => trimStart b
    | _ :: _ => trimStart a ++ b
    end.
Proof.
  induction a as [|c a IH]; simpl; [done|].
  destruct (is_js_space c); [exact IH | done].
Qed.

Lemma trimStart_fixed (c : N) (s : jsstring) :
  is_js_space c = false -> trimStart (c :: s) = c :: s.
Proof. intros H. simpl. by rewrite H. Qed.

(** A line that begins with the prefix keeps it under [trim]; what follows
    loses its trailing white space. When nothing else is left, the blank of
    the prefix goes too. *)
Lemma trim_data_line (payload : jsstring) :
  trim (str "data: " ++ payload) =
    match trimEnd payload with
    | [] => str "data:"
    | _ :: _ => str "data: " ++ trimEnd payload
    end.
Proof.
  unfold trim.
  change (str "data: " ++ payload) with (100 :: [97; 116; 97; 58; 32] ++ payload).
  rewrite (trimStart_fixed 100) by reflexivity.
  change (100 :: [97; 116; 97; 58; 32] ++ payload) with (str "data: " ++ payload).
  unfold trimEnd. rewrite rev_app_distr, trimStart_app.
  destruct (trimStart (rev payload)) as [|c r] eqn:E.
  - reflexivity.
  - rewrite rev_app_distr, rev_involutive.
    destruct (rev (c :: r)) eqn:E'; [|reflexivity].
    apply (f_equal (@rev N)) in E'. by rewrite rev_involutive in E'.
Qed.

(** ** Line splitting *)

Lemma split_lines_cons (c : N) (s : jsstring) :
  split_lines (c :: s) =
    if c =? 10 then [] :: split_lines s
    else match split_lines s with
         | h :: t => (c :: h) :: t
         | [] => [[c]]
         end.
Proof. reflexivity. Qed.

Lemma split_lines_nonempty (s : jsstring) : split_lines s <> [].
Proof.
  destruct s as [|c s]; [done|]. rewrite split_lines_cons.
  destruct (c =? 10); [done|]. by destruct (split_lines s).
Qed.

(** The piece held back contains no line feed: splitting it again gives it
    back. *)
Lemma split_lines_held (s : jsstring) :
  split_lines (List.last (split_lines s) []) = [List.last (split_lines s) []].
Proof.
  induction s as [|c s IH]; [done|].
  rewrite split_lines_cons. pose proof (split_lines_nonempty s) as Hne.
  destruct (c =? 10) eqn:Ec.
  - destruct (split_lines s) as [|h t]; [done|]. exact IH.
  - destruct (split_lines s) as [|h [|h2 t]]; [done| |exact IH].
    simpl in *. rewrite Ec, IH. reflexivity.
Qed.

(** Text appended to a buffer only extends its last piece. *)
Lemma split_lines_app (a b : jsstring) :
  split_lines (a ++ b) =
    List.removelast (split_lines a)
      ++ split_lines (List.last (split_lines a) [] ++ b).
Proof.
  induction a as [|c a IH]; [done|].
  rewrite <- app_comm_cons, !split_lines_cons, IH.
  pose proof (split_lines_nonempty a) as Hne.
  destruct (c =? 10) eqn:Ec.
  - destruct (split_lines a) as [|h t]; [done|]. reflexivity.
  - destruct (split_lines a) as [|h [|h2 t]]; [done| |reflexivity].
    simpl. rewrite Ec. reflexivity.
Qed.

Lemma decode_lines_app (l1 l2 : list jsstring) :
  decode_lines (l1 ++ l2) = decode_lines l1 ++ decode_lines l2.
Proof.
  induction l1 as [|line l1 IH]; simpl; [done|].
  destruct (truthy (parseSSEData line)); simpl; by rewrite IH.
Qed.

(** The events of a chunk sequence are those of the complete lines of the
    buffer followed by all the chunks. *)
Lemma decode_from_complete_lines (cs : list jsstring) (buffer : jsstring) :
  split_lines buffer = [buffer] ->
  decode_from buffer cs =
    decode_lines (List.removelast (split_lines (buffer ++ List.concat cs))).
Proof.
  revert buffer. induction cs as [|c cs IH]; intros buffer Hb.
  - simpl. by rewrite app_nil_r, Hb.
  - simpl. unfold feed, pop.
    rewrite (IH _ (split_lines_held (buffer ++ c))).
    rewrite app_assoc, (split_lines_app (buffer ++ c)).
    rewrite removelast_app by apply split_lines_nonempty.
    by rewrite decode_lines_app.
Qed.

(** C6: however the text of a stream is cut into chunks, the decoder gives
    the events it gives for the whole text fed as one chunk. *)
Theorem decode_chunks_boundary_invariant (cs : list jsstring) :
  decode_chunks cs = decode_chunks [List.concat cs].
Proof.
  unfold decode_chunks.
  rewrite !decode_from_complete_lines by reflexivity.
  simpl. by rewrite app_nil_r.
Qed.

(** ** Lines and frames *)

Lemma parseSSEData_trimmed (line : jsstring) :
  parseSSEData line =
    if startsWith (trim line) (str "data: ") then
      if str_eqb (slice 6 (trim line)) (str "[DONE]") then done_record
      else default JNull (JSON_parse (slice 6 (trim line)))
    else JNull.
Proof.
  unfold parseSSEData.
  destruct (trim line) as [|c t] eqn:E; [reflexivity|].
  simpl nonempty. simpl negb at 1. rewrite orb_false_l.
  destruct (startsWith (c :: t) (str "data: ")); simpl; [|reflexivity].
  destruct (str_eqb _ _); [reflexivity|]. by destruct (JSON_parse _).
Qed.

Lemma decode_lines_single (line : jsstring) :
  decode_lines [line] =
    if truthy (parseSSEData line) then [parseSSEData line] else [].
Proof. reflexivity. Qed.

(** C8, as stated, fails: a line that begins with a blank does not begin with
    the prefix, and still decodes to an event. *)
Lemma indented_data_line_decodes :
  startsWith (str " data: [DONE]") (str "data: ") = false
  /\ parseSSEData (str " data: [DONE]") = done_record
  /\ decode_chunks [str " data: [DONE]" ++ LF] = [done_record].
Proof. vm_compute. auto. Qed.

(** C8, amended: a line that does not begin with ["data: "] once its
    surrounding white space is removed gives no event. This covers every
    line that has no leading white space and does not begin with the
    prefix. *)
Theorem line_without_prefix_ignored (line : jsstring) :
  startsWith (trim line) (str "data: ") = false
  \/ (trimStart line = line /\ startsWith line (str "data: ") = false) ->
  parseSSEData line = JNull /\ decode_lines [line] = [].
Proof.
  intros H.
  assert (Htrim : startsWith (trim line) (str "data: ") = false).
  { destruct H as [H | [Hfix Hline]]; [exact H|].
    unfold trim. rewrite Hfix.
    destruct (startsWith (trimEnd line) (str "data: ")) eqn:E; [|reflexivity].
    destruct (trimEnd_prefix line) as [post Hpost].
    apply (startsWith_app_l _ post) in E. rewrite <- Hpost in E. congruence. }
  assert (Hnull : parseSSEData line = JNull).
  { by rewrite parseSSEData_trimmed, Htrim. }
  split; [exact Hnull|]. by rewrite decode_lines_single, Hnull.
Qed.

Lemma line_without_prefix_ignored_witness :
  (trimStart (str "event: ping") = str "event: ping"
   /\ startsWith (str "event: ping") (str "data: ") = false)
  /\ parseSSEData (str "event: ping") = JNull
  /\ decode_lines [str "event: ping"] = [].
Proof.
  split; [split; reflexivity|].
  apply (line_without_prefix_ignored (str "event: ping")).
  right. split; reflexivity.
Defined.

(** C9, as stated, fails: with a carriage return before the line feed the
    payload is neither valid JSON nor the bare token, and the line still
    decodes to the end-of-turn record. *)
Lemma done_before_carriage_return_decodes :
  JSON_parse (str "[DONE]" ++ [13]) = None
  /\ str "[DONE]" ++ [13] <> str "[DONE]"
  /\ parseSSEData (str "data: " ++ str "[DONE]" ++ [13]) = done_record
  /\ decode_chunks [str "data: " ++ str "[DONE]" ++ [13] ++ LF] = [done_record].
Proof.
  split; [reflexivity|]. split; [by apply str_eqb_neq|].
  split; reflexivity.
Qed.

(** C9, amended: for a line ["data: " ++ payload], what counts is the payload
    without its trailing white space. If that is the token [[DONE]] the line
    decodes to exactly the end-of-turn record; if it is neither the token nor
    text that [JSON.parse] accepts, the line gives no event. *)
Theorem data_line_decoding (payload : jsstring) :
  (trimEnd payload = str "[DONE]" ->
   parseSSEData (str "data: " ++ payload) = done_record
   /\ decode_lines [str "data: " ++ payload] = [done_record])
  /\ (trimEnd payload <> str "[DONE]" ->
      JSON_parse (trimEnd payload) = None ->
      parseSSEData (str "data: " ++ payload) = JNull
      /\ decode_lines [str "data: " ++ payload] = []).
Proof.
  assert (Hline : parseSSEData (str "data: " ++ payload) =
            match trimEnd payload with
            | [] => JNull
            | _ :: _ =>
                if str_eqb (trimEnd payload) (str "[DONE]") then done_record
                else default JNull (JSON_parse (trimEnd payload))
            end).
  { rewrite parseSSEData_trimmed, trim_data_line.
    destruct (trimEnd payload) as [|c d]; [reflexivity|].
    by rewrite startsWith_app. }
  rewrite decode_lines_single, Hline. split.
  - intros ->. split; reflexivity.
  - intros Hneq Hbad. destruct (trimEnd payload) as [|c d]; [done|].
    apply str_eqb_neq in Hneq. rewrite Hneq, Hbad. done.
Qed.

Lemma data_line_decoding_witness :
  (trimEnd (wire "{not valid json}") <> str "[DONE]"
   /\ JSON_parse (trimEnd (wire "{not valid json}")) = None)
  /\ parseSSEData (str "data: " ++ wire "{not valid json}") = JNull
  /\ decode_lines [str "data: " ++ wire "{not valid json}"] = [].
Proof.
  assert (H1 : trimEnd (wire "{not valid json}") <> str "[DONE]").
  { by apply str_eqb_neq. }
  assert (H2 : JSON_parse (trimEnd (wire "{not valid json}")) = None).
  { reflexivity. }
  split; [by split|].
  exact (proj2 (data_line_decoding (wire "{not valid json}")) H1 H2).
Defined.

(** ** Tool results *)

Lemma with_parts_same (st : State) : with_parts (contentParts st) st = st.
Proof. by destruct st. Qed.

Lemma set_result_first (name res : jsstring) (parts : list ContentPart) :
  first_named_takes_result name res parts (set_result name res parts).
Proof.
  unfold first_named_takes_result.
  induction parts as [|p parts IH].
  - right. split; [|done]. intros j q. by rewrite lookup_nil.
  - assert (Hskip : is_call_named name p = false ->
        set_result name res (p :: parts) = p :: set_result name res parts).
    { destruct p as [t | i n a raw r]; simpl; [done|]. by intros ->. }
    destruct (is_call_named name p) eqn:Ep.
    + left. exists 0%nat, p. split; [done|]. split; [done|].
      split; [intros; lia|].
      destruct p as [t | i n a raw r]; simpl in *; [done|]. by rewrite Ep.
    + rewrite (Hskip eq_refl).
      destruct IH as [(i & p' & Hi & Hn & Hlt & Heq) | [Hno Heq]].
      * left. exists (S i), p'. split; [done|]. split; [done|]. split.
        -- intros [|j] q Hj Hq; simpl in Hq; [congruence|].
           apply (Hlt j q); [lia | done].
        -- simpl. by rewrite Heq.
      * right. split; [|by rewrite Heq].
        intros [|j] q Hq; simpl in Hq; [congruence | by eapply Hno].
Qed.

Lemma set_result_no_match (name res : jsstring) (parts : list ContentPart) :
  (forall j q, parts !! j = Some q -> is_call_named name q = false) ->
  set_result name res parts = parts.
Proof.
  intros Hno.
  destruct (set_result_first name res parts)
    as [(i & p & Hi & Hn & _) | [_ Heq]]; [|done].
  rewrite (Hno i p Hi) in Hn. discriminate.
Qed.

(** C2, on the code: one tool is called twice, each call announced and then
    answered. The comment of [case "tool_result"] says that the result updates
    the corresponding tool call, and the specification that a call which has
    its result is skipped. The loop stops at the first call of that name: the
    second result replaces the first call's result, and the second call is
    left without one, in the last snapshot of [run] and of the assembler
    alike. *)
Theorem second_result_overwrites_first :
  List.last
    (yields (run (Response true 200 (str "OK")
                    (Some {| chunks := [search_twice]; failure := None |})))) []
  = [Untyped.ToolCall (Some (JString (str "1"))) (Some (JString (str "search")))
       (JObject []) (JString (str "{}")) (Some (JString (str "R1")));
     Untyped.ToolCall (Some (JString (str "2"))) (Some (JString (str "search")))
       (JObject []) (JString (str "{}")) None]
  /\ List.last
       (assemble
          [ToolCallsAnnounced [announce (str "1") (str "search") None];
           ToolResult (str "search") (str "R0");
           ToolCallsAnnounced [announce (str "2") (str "search") None];
           ToolResult (str "search") (str "R1")]) []
     = [ToolCallPart (str "1") (str "search") (JObject []) (str "{}") (Some (str "R1"));
        ToolCallPart (str "2") (str "search") (JObject []) (str "{}") None]
  /\ set_result_unresolved (str "search") (str "R1") two_searches
     = [ToolCallPart (str "1") (str "search") (JObject []) (str "{}") (Some (str "R0"));
        ToolCallPart (str "2") (str "search") (JObject []) (str "{}") (Some (str "R1"))]
  /\ set_result (str "search") (str "R1") two_searches
     <> set_result_unresolved (str "search") (str "R1") two_searches.
Proof.
  split; [reflexivity|]. split; [reflexivity|]. split; [reflexivity|].
  vm_compute. discriminate.
Qed.

(** The loop of [case "tool_result"] as it is written, for every state: it
    never reads [part.result]. The first tool-call part of the name is
    assigned the result, also when it has one already; no other part and no
    index changes. *)
Lemma tool_result_loop
    (m : SSEMessage) (st : State) (name res : jsstring) :
  msg_type m = T_tool_result ->
  msg_tool_name m = Some name ->
  msg_result m = Some res ->
  name <> [] ->
  res <> [] ->
  exists st',
    handle_message m st = (Normal, st')
    /\ currentTextIndex st' = currentTextIndex st
    /\ first_named_takes_result name res (contentParts st) (contentParts st').
Proof.
  intros Hty Hname Hres Hn Hr.
  exists (with_parts (set_result name res (contentParts st)) st).
  unfold handle_message. rewrite Hty, Hname, Hres.
  destruct name as [|c name]; [done|]. destruct res as [|d res]; [done|].
  split; [reflexivity|]. split; [reflexivity|]. apply set_result_first.
Qed.

(** C10: a tool result without a tool name, without a result (absent or
    empty), or for a name that no tool-call part has, leaves the whole state
    as it was and completes normally. *)
Theorem tool_result_absorbed (m : SSEMessage) (st : State) :
  msg_type m = T_tool_result ->
  present (msg_tool_name m) = false
  \/ present (msg_result m) = false
  \/ (exists name,
        msg_tool_name m = Some name
        /\ forall j q, contentParts st !! j = Some q ->
                       is_call_named name q = false) ->
  handle_message m st = (Normal, st)
  /\ process_message m st = (yield_parts st, Some st).
Proof.
  intros Hty H.
  assert (Hh : handle_message m st = (Normal, st)).
  { unfold handle_message. rewrite Hty.
    destruct (msg_tool_name m) as [[|c name]|] eqn:En; try reflexivity.
    destruct (msg_result m) as [[|d res]|] eqn:Er; try reflexivity.
    destruct H as [H | [H | (name' & [= <-] & Hno)]]; try discriminate.
    by rewrite (set_result_no_match _ _ _ Hno), with_parts_same. }
  split; [exact Hh|]. unfold process_message. by rewrite Hh.
Qed.

Lemma tool_result_absorbed_witness :
  present (msg_result (ToolResult (str "search") [])) = false
  /\ handle_message (ToolResult (str "search") [])
       (with_parts two_searches initial_state)
     = (Normal, with_parts two_searches initial_state).
Proof.
  split; [reflexivity|].
  apply (tool_result_absorbed (ToolResult (str "search") [])
           (with_parts two_searches initial_state) eq_refl).
  right. left. reflexivity.
Defined.

(** ** Tool-call batches *)


Lemma tool_call_part_parsed (tc : ToolCallData) (v : JSON) :
  JSON_parse (raw_arguments tc) = Some v ->
  tool_call_part tc =
    Some (ToolCallPart (tc_id tc) (fn_name (tc_function tc)) v
            (raw_arguments tc) None).
Proof. intros H. unfold tool_call_part. by rewrite H. Qed.

Lemma push_tool_calls_all_parse (calls : list ToolCallData)
    (parts : list ContentPart) :
  all_parse calls ->
  exists ps,
    push_tool_calls calls parts = (parts ++ ps, None)
    /\ Forall2 announced_part calls ps.
Proof.
  intros Hall. revert parts.
  induction Hall as [|tc calls [v Hv] _ IH]; intros parts.
  - exists []. simpl. by rewrite app_nil_r.
  - destruct (IH (parts ++ [ToolCallPart (tc_id tc) (fn_name (tc_function tc)) v
                              (raw_arguments tc) None])) as (ps & Hps & Hf).
    eexists (_ :: ps). simpl. rewrite (tool_call_part_parsed tc v Hv), Hps.
    split; [by rewrite <- app_assoc|].
    constructor; [by exists v | exact Hf].
Qed.

Lemma open_text_closed (st : State) :
  currentTextIndex st = (-1)%Z -> open_text st = None.
Proof. intros H. unfold open_text. by rewrite H. Qed.




(** ** Content *)

Lemma open_text_lookup (st : State) (t : jsstring) :
  open_text st = Some t ->
  (0 <= currentTextIndex st)%Z
  /\ contentParts st !! Z.to_nat (currentTextIndex st) = Some (TextPart t).
Proof.
  unfold open_text, at_index.
  destruct (currentTextIndex st =? -1)%Z; [done|].
  destruct (currentTextIndex st <? 0)%Z eqn:E; [done|].
  apply Z.ltb_ge in E.
  destruct (contentParts st !! Z.to_nat (currentTextIndex st))
    as [[t'|]|]; try done.
  by intros [= ->].
Qed.

Lemma open_text_at (parts : list ContentPart) (i : Z) (t : jsstring) (k : Z) :
  (0 <= i)%Z ->
  parts !! Z.to_nat i = Some (TextPart t) ->
  open_text {| contentParts := parts; currentTextIndex := i;
               toolCallsIndex := k |} = Some t.
Proof.
  intros Hi H. unfold open_text, at_index. simpl.
  destruct (i =? -1)%Z eqn:E1; [apply Z.eqb_eq in E1; lia|].
  destruct (i <? 0)%Z eqn:E2; [apply Z.ltb_lt in E2; lia|].
  by rewrite H.
Qed.

(** C7, as stated, fails: a content delta with the empty text does not open
    a text part. *)
Lemma empty_delta_opens_nothing :
  open_text initial_state = None
  /\ handle_message (ContentDelta []) initial_state = (Normal, initial_state)
  /\ assemble [ContentDelta []] = [].
Proof. repeat split. Qed.

(** C7, amended: a content delta with a non-empty text is appended as a new
    text part, which becomes the open one, when no text part is open, and is
    concatenated onto the open text part otherwise; a delta with the empty
    text changes nothing. Two deltas in a row give one text part, and after a
    batch of tool calls that has been appended no text part is open, so that
    the next content starts a new one. *)
Theorem content_delta_effect (m : SSEMessage) (st : State) (text : jsstring) :
  msg_type m = T_content ->
  msg_text m = Some text ->
  (exists st',
      handle_message m st = (Normal, st')
      /\ (text = [] -> st' = st)
      /\ (text <> [] -> open_text st = None ->
          contentParts st' = contentParts st ++ [TextPart text]
          /\ currentTextIndex st' = Z.of_nat (length (contentParts st))
          /\ open_text st' = Some text)
      /\ (text <> [] -> forall t, open_text st = Some t ->
          contentParts st' =
            <[Z.to_nat (currentTextIndex st) := TextPart (t ++ text)]>
              (contentParts st)
          /\ contentParts st !! Z.to_nat (currentTextIndex st) = Some (TextPart t)
          /\ currentTextIndex st' = currentTextIndex st
          /\ open_text st' = Some (t ++ text)))
  /\ assemble [ContentDelta (str "Hello "); ContentDelta (str "world")]
     = [[TextPart (str "Hello ")]; [TextPart (str "Hello world")];
        [TextPart (str "Hello world")]]
  /\ (forall calls st0 st1,
        calls <> [] ->
        handle_message (ToolCallsAnnounced calls) st0 = (Normal, st1) ->
        open_text st1 = None).
Proof.
  intros Hty Htext. split; [|split; [reflexivity|]].
  - unfold handle_message. rewrite Hty, Htext.
    destruct text as [|c text].
    { exists st. by repeat split. }
    exists (on_content (c :: text) st). split; [reflexivity|].
    split; [done|]. unfold on_content. split.
    + intros _ Hopen. rewrite Hopen. simpl. repeat split.
      apply open_text_at; [lia|]. rewrite Nat2Z.id, lookup_app_r by lia.
      by rewrite Nat.sub_diag.
    + intros _ t Hopen. rewrite Hopen. simpl.
      destruct (open_text_lookup st t Hopen) as [Hpos Hlook].
      repeat split; [exact Hlook|].
      apply open_text_at; [exact Hpos|]. apply list_lookup_insert_eq.
      by eapply lookup_lt_Some.
  - intros calls st0 st1 Hne. unfold handle_message, ToolCallsAnnounced.
    cbn [msg_type msg_tool_calls].
    destruct calls as [|tc calls]; [done|].
    destruct (push_tool_calls (tc :: calls) (contentParts st0))
      as [parts [e|]]; [intros [=]|].
    intros [= <-]. by apply open_text_closed.
Qed.

Lemma content_delta_effect_witness :
  exists st',
    handle_message (ContentDelta (str "world"))
      {| contentParts := [TextPart (str "Hello ")]; currentTextIndex := 0;
         toolCallsIndex := -1 |} = (Normal, st')
    /\ contentParts st' = [TextPart (str "Hello world")].
Proof.
  destruct (proj1 (content_delta_effect (ContentDelta (str "world"))
              {| contentParts := [TextPart (str "Hello ")]; currentTextIndex := 0;
                 toolCallsIndex := -1 |} (str "world") eq_refl eq_refl))
    as (st' & Hh & _ & _ & Happend).
  exists st'. split; [exact Hh|].
  apply (Happend ltac:(discriminate) (str "Hello ") eq_refl).
Defined.

(** ** Tool errors *)

(** C3, as stated, fails: a tool error with an empty message appends
    nothing, and the notice of a tool error does not become the open text
    part: the next content goes to the text part that was open before. *)
Lemma tool_error_notice_not_open :
  handle_message (ToolError []) initial_state = (Normal, initial_state)
  /\ assemble
       [ContentDelta (str "A"); ToolError (str "boom"); ContentDelta (str "B")]
     = [[TextPart (str "A")];
        [TextPart (str "A"); TextPart (tool_error_text (str "boom"))];
        [TextPart (str "AB"); TextPart (tool_error_text (str "boom"))];
        [TextPart (str "AB"); TextPart (tool_error_text (str "boom"))]].
Proof. split; reflexivity. Qed.

(** C3, amended: a tool error with a non-empty message appends one new text
    part after all the existing parts, which stay as they are; its text is
    the notice, which contains the message. A tool error with an empty
    message changes nothing. *)
Theorem tool_error_effect (m : SSEMessage) (st : State) (e : jsstring) :
  msg_type m = T_tool_error ->
  msg_error m = Some e ->
  exists st',
    handle_message m st = (Normal, st')
    /\ (e = [] -> st' = st)
    /\ (e <> [] ->
        contentParts st' = contentParts st ++ [TextPart (tool_error_text e)]
        /\ exists pre post, tool_error_text e = pre ++ e ++ post).
Proof.
  intros Hty He. unfold handle_message. rewrite Hty, He.
  destruct e as [|c e].
  - exists st. by repeat split.
  - eexists. split; [reflexivity|]. split; [done|]. intros _.
    split; [reflexivity|].
    exists ([9888; 65039] ++ str " Tool Error: "), (LF ++ LF).
    unfold tool_error_text. by rewrite <- !app_assoc.
Qed.

Lemma tool_error_effect_witness :
  exists st',
    handle_message (ToolError (str "boom"))
      {| contentParts := [TextPart (str "A")]; currentTextIndex := 0;
         toolCallsIndex := -1 |} = (Normal, st')
    /\ contentParts st'
       = [TextPart (str "A"); TextPart (tool_error_text (str "boom"))].
Proof.
  destruct (tool_error_effect (ToolError (str "boom"))
              {| contentParts := [TextPart (str "A")]; currentTextIndex := 0;
                 toolCallsIndex := -1 |} (str "boom") eq_refl eq_refl)
    as (st' & Hh & _ & Happend).
  exists st'. split; [exact Hh|].
  apply (Happend ltac:(discriminate)).
Defined.

(** ** Snapshots *)

Lemma yield_parts_cases (st : State) :
  (contentParts st <> [] -> yield_parts st = [contentParts st])
  /\ (contentParts st = [] -> yield_parts st = []).
Proof. unfold yield_parts. by destruct (contentParts st). Qed.

(** C5, as stated, fails: while there is no part, an event is followed by no
    snapshot. *)
Lemma no_snapshot_while_empty :
  process_message (ThinkingDelta (str "hmm")) initial_state
  = ([], Some initial_state)
  /\ process_message ToolStarted initial_state = ([], Some initial_state)
  /\ assemble [ThinkingDelta (str "hmm"); ToolStarted] = [].
Proof. repeat split. Qed.

(** C5, amended: an event other than a stream error or the end of the turn,
    whose tool-call arguments (if it announces calls) all parse, completes
    normally and is followed by one snapshot of the parts as they then are
    when there is at least one part, and by no snapshot when there is none.
    The snapshot is also given when the event changed nothing, as for a
    thinking delta or a tool start. *)
Theorem snapshot_after_event (m : SSEMessage) (st : State) :
  msg_type m <> T_error ->
  msg_type m <> T_done ->
  (forall calls,
      msg_type m = T_tool_calls -> msg_tool_calls m = Some calls ->
      all_parse calls) ->
  exists st',
    handle_message m st = (Normal, st')
    /\ process_message m st = (yield_parts st', Some st')
    /\ (contentParts st' <> [] -> yield_parts st' = [contentParts st'])
    /\ (contentParts st' = [] -> yield_parts st' = [])
    /\ (msg_type m = T_thinking \/ msg_type m = T_tool_start -> st' = st).
Proof.
  intros Herr Hdone Hcalls.
  assert (H : exists st',
             handle_message m st = (Normal, st')
             /\ (msg_type m = T_thinking \/ msg_type m = T_tool_start ->
                 st' = st)).
  { unfold handle_message.
    destruct (msg_type m) eqn:Hty; try done.
    - destruct (msg_text m) as [[|c text]|]; eexists; split;
        (reflexivity || by intros [|]).
    - eexists. by split.
    - destruct (msg_tool_calls m) as [[|tc calls]|] eqn:Ec;
        try (eexists; split; [reflexivity | by intros [|]]).
      destruct (push_tool_calls_all_parse (tc :: calls) (contentParts st)
                  (Hcalls _ eq_refl eq_refl)) as (ps & -> & _).
      eexists; split; [reflexivity | by intros [|]].
    - eexists. by split.
    - destruct (msg_tool_name m) as [[|c name]|],
               (msg_result m) as [[|d res]|];
        eexists; split; (reflexivity || by intros [|]).
    - destruct (msg_error m) as [[|c e]|]; eexists; split;
        (reflexivity || by intros [|]). }
  destruct H as (st' & Hh & Hsame). exists st'.
  split; [exact Hh|]. split; [unfold process_message; by rewrite Hh|].
  destruct (yield_parts_cases st') as [Hne Hemp]. by repeat split.
Qed.

Lemma snapshot_after_event_witness :
  exists st',
    process_message ToolStarted
      {| contentParts := [TextPart (str "A")]; currentTextIndex := 0;
         toolCallsIndex := -1 |}
    = ([[TextPart (str "A")]], Some st').
Proof.
  destruct (snapshot_after_event ToolStarted
              {| contentParts := [TextPart (str "A")]; currentTextIndex := 0;
                 toolCallsIndex := -1 |}
              ltac:(discriminate) ltac:(discriminate) ltac:(discriminate))
    as (st' & _ & Hp & _ & _ & Hsame).
  exists st'. rewrite Hp. by rewrite (Hsame (or_intror eq_refl)).
Defined.

(** ** Stream errors *)

(** The exception of [case "error"] is thrown inside the [try] of the event
    and caught there: the state is kept, nothing is yielded, and the loop
    goes on with the next line. *)
Lemma stream_error_caught (m : SSEMessage) (st : State) :
  msg_type m = T_error ->
  handle_message m st
  = (Throw (JSError (str "Error") (or_default (msg_error m) (str "Stream error"))),
     st)
  /\ process_message m st = ([], Some st).
Proof.
  intros Hty. unfold process_message, handle_message. by rewrite Hty.
Qed.

(** C1, on the code: a stream whose first frame is an error and whose second
    frame is content. The generator goes on to the content frame, yields its
    text twice (after the event and at the end) and returns; it does not
    throw. *)
Theorem stream_error_does_not_end_the_run :
  run (Response true 200 (str "OK")
         (Some {| chunks := [error_then_content]; failure := None |}))
  = {| yields := [[Untyped.Text (str "hi")]; [Untyped.Text (str "hi")]];
       outcome := Returns |}.
Proof. reflexivity. Qed.

(** ** The scenarios of the specification *)

Example content_after_tool_calls :
  List.last
    (assemble
       [ContentDelta (str "A");
        ToolCallsAnnounced [announce (str "1") (str "x") (Some (str "{}"))];
        ContentDelta (str "B")]) []
  = [TextPart (str "A");
     ToolCallPart (str "1") (str "x") (JObject []) (str "{}") None;
     TextPart (str "B")].
Proof. reflexivity. Qed.

Example first_unresolved_search_takes_result :
  List.last
    (assemble
       [ToolCallsAnnounced [announce (str "1") (str "search") None;
                            announce (str "2") (str "search") None];
        ToolResult (str "search") (str "R1")]) []
  = [ToolCallPart (str "1") (str "search") (JObject []) (str "{}") (Some (str "R1"));
     ToolCallPart (str "2") (str "search") (JObject []) (str "{}") None].
Proof. reflexivity. Qed.

Example web_search_turn :
  assemble
    [ToolCallsAnnounced
       [announce (str "1") (str "web_search") (Some (wire "{'query':'cats'}"))];
     ToolResult (str "web_search") (str "1. **Cats**");
     StreamDone]
  = [[ToolCallPart (str "1") (str "web_search")
        (JObject [(str "query", JString (str "cats"))])
        (wire "{'query':'cats'}") None];
     [ToolCallPart (str "1") (str "web_search")
        (JObject [(str "query", JString (str "cats"))])
        (wire "{'query':'cats'}") (Some (str "1. **Cats**"))]].
Proof. reflexivity. Qed.

Example done_token_is_not_json : JSON_parse (str "[DONE]") = None.
Proof. reflexivity. Qed.

Example done_record_is_StreamDone : as_SSEMessage done_record = Some StreamDone.
Proof. reflexivity. Qed.

(** Of a batch, the calls before the first one whose arguments do not parse
    are appended, that call and the calls after it are not. *)
Example batch_cut_at_unparsable_arguments :
  handle_message
    (ToolCallsAnnounced
       [announce (str "1") (str "x") None;
        announce (str "2") (str "y") (Some (str "{bad"));
        announce (str "3") (str "z") None])
    initial_state
  = (Throw SyntaxError,
     {| contentParts :=
          [ToolCallPart (str "1") (str "x") (JObject []) (str "{}") None];
        currentTextIndex := -1; toolCallsIndex := 0 |}).
Proof. reflexivity. Qed.

Example transport_failure_is_thrown :
  run (Response false 500 (str "Internal Server Error") None)
  = {| yields := [];
       outcome := Throws (JSError (str "Error")
                            (str "API error: 500 Internal Server Error")) |}.
Proof. reflexivity. Qed.

Example abort_is_silent :
  run (Response true 200 (str "OK")
         (Some {| chunks := [wire "data: {'type':'content','text':'hi'}" ++ LF];
                  failure := Some (JSError (str "AbortError") (str "aborted")) |}))
  = {| yields := [[Untyped.Text (str "hi")]]; outcome := Returns |}.
Proof. reflexivity. Qed.

(** ** The generator is the assembler applied to the decoder's events *)

Lemma run_lines_decode (lines : list jsstring) (st : Untyped.State) :
  run_lines lines st = run_values (decode_lines lines) st.
Proof.
  revert st. induction lines as [|line lines IH]; intros st; [done|].
  simpl. destruct (truthy (parseSSEData line)); [|apply IH].
  simpl. destruct (Untyped.process_value _ st) as [ys [st'|]]; [|done].
  by rewrite IH.
Qed.

Lemma run_values_app (vs ws : list JSON) (st : Untyped.State) :
  run_values (vs ++ ws) st =
    match run_values vs st with
    | (ys, Some st') => let '(ys', r') := run_values ws st' in (ys ++ ys', r')
    | (ys, None) => (ys, None)
    end.
Proof.
  revert st. induction vs as [|v vs IH]; intros st.
  - simpl. by destruct (run_values ws st).
  - simpl. destruct (Untyped.process_value v st) as [ys [st'|]]; [|done].
    rewrite IH. destruct (run_values vs st') as [ys1 [st1|]]; [|done].
    destruct (run_values ws st1) as [ys2 r2]. by rewrite app_assoc.
Qed.

Lemma conclude_prepend (fail : option Exn) (ys ys' : list Untyped.Snapshot)
    (r : option Untyped.State) :
  conclude fail (ys ++ ys', r) = prepend ys (conclude fail (ys', r)).
Proof.
  unfold conclude, prepend. destruct r as [st|]; [|done].
  destruct fail; simpl; [done|]. by rewrite app_assoc.
Qed.

Lemma read_loop_decode (cs : list jsstring) (fail : option Exn)
    (buffer : jsstring) (st : Untyped.State) :
  split_lines buffer = [buffer] ->
  read_loop cs fail buffer st
  = conclude fail (run_values (decode_from buffer cs) st).
Proof.
  revert buffer st. induction cs as [|c cs IH]; intros buffer st Hb.
  - simpl. by destruct fail.
  - simpl. unfold feed, pop. rewrite run_lines_decode, run_values_app.
    destruct (run_values _ st) as [ys [st'|]]; [|done].
    rewrite (IH _ st' (split_lines_held (buffer ++ c))).
    destruct (run_values _ st') as [ys' r'].
    by rewrite conclude_prepend.
Qed.

(** X20: the snapshots and the outcome of [run] do not depend on how the
    body is cut into chunks either. *)
Lemma run_boundary_invariant (ok : bool) (status : N) (statusText : jsstring)
    (cs : list jsstring) (fail : option Exn) :
  run (Response ok status statusText (Some {| chunks := cs; failure := fail |}))
  = run (Response ok status statusText
           (Some {| chunks := [List.concat cs]; failure := fail |})).
Proof.
  destruct ok; [|done]. unfold run. cbn [chunks failure].
  rewrite !read_loop_decode by reflexivity.
  rewrite !decode_from_complete_lines by reflexivity.
  cbn [List.concat app]. by rewrite app_nil_r.
Qed.

(** ** The declared types inside the run-time values *)

Lemma untyped_open_text (st : State) :
  Untyped.open_text (untyped_state st) = open_text st.
Proof.
  unfold Untyped.open_text, open_text, Untyped.at_index, at_index. simpl.
  destruct (currentTextIndex st =? -1)%Z; [done|].
  destruct (currentTextIndex st <? 0)%Z; [done|].
  rewrite list_lookup_fmap.
  by destruct (contentParts st !! Z.to_nat (currentTextIndex st)) as [[|]|].
Qed.

Lemma untyped_on_content (text : jsstring) (st : State) :
  Untyped.on_content text (untyped_state st)
  = untyped_state (on_content text st).
Proof.
  unfold Untyped.on_content, on_content. rewrite untyped_open_text.
  destruct (open_text st) as [t|]; unfold untyped_state; simpl.
  - by rewrite list_fmap_insert.
  - by rewrite fmap_app, length_fmap.
Qed.

Lemma opt_string_field_get (k : string) (ms : list (jsstring * JSON))
    (o : option jsstring) :
  opt_string_field k ms = Some o -> get_member (str k) ms = JString <$> o.
Proof.
  unfold opt_string_field.
  destruct (get_member (str k) ms) as [[]|]; try done; by intros [= <-].
Qed.

Lemma untyped_tool_call_part (v : JSON) (tc : ToolCallData) :
  tool_call_of v = Some tc ->
  Untyped.tool_call_part v = untyped_part <$> tool_call_part tc.
Proof.
  destruct v as [| | | | |ms]; try done. unfold tool_call_of.
  destruct (get_member (str "id") ms) as [[| | |i| |]|] eqn:Ei; try done.
  destruct (get_member (str "function") ms) as [[| | | | |fs]|] eqn:Ef; try done.
  destruct (get_member (str "name") fs) as [[| | |n| |]|] eqn:En; try done.
  destruct (opt_string_field "arguments" fs) as [a|] eqn:Ea; [|done].
  apply opt_string_field_get in Ea. intros [= <-].
  unfold Untyped.tool_call_part, tool_call_part, Untyped.raw_arguments,
    raw_arguments, get_prop. rewrite Ef, Ei, En, Ea. cbn [tc_function fn_arguments
    tc_id fn_name].
  destruct a as [[|c a]|]; cbn [fmap option_fmap option_map truthy nonempty
    or_default ToString mbind option_bind];
    by destruct (JSON_parse _).
Qed.

Lemma untyped_push_tool_calls (vs : list JSON) (tcs : list ToolCallData)
    (parts : list ContentPart) :
  tool_calls_of vs = Some tcs ->
  Untyped.push_tool_calls vs (untyped_part <$> parts)
  = (untyped_part <$> fst (push_tool_calls tcs parts),
     match snd (push_tool_calls tcs parts) with None => true | Some _ => false end).
Proof.
  revert tcs parts. induction vs as [|v vs IH]; intros tcs parts; simpl.
  - by intros [= <-].
  - destruct (tool_call_of v) as [tc|] eqn:Etc; [|done]. simpl.
    destruct (tool_calls_of vs) as [tcs'|] eqn:Etcs; [|done]. simpl.
    intros [= <-]. rewrite (untyped_tool_call_part v tc Etc). simpl.
    destruct (tool_call_part tc) as [p|]; [|done]. simpl.
    rewrite <- (IH tcs' (parts ++ [p]) eq_refl). by rewrite fmap_app.
Qed.

Lemma untyped_set_result (name res : jsstring) (parts : list ContentPart) :
  Untyped.set_result (JString name) (JString res) (untyped_part <$> parts)
  = untyped_part <$> set_result name res parts.
Proof.
  induction parts as [|[t | i n a raw r] parts IH]; simpl; [done| |].
  - f_equal. exact IH.
  - destruct (str_eqb n name); simpl; [done|]. f_equal. exact IH.
Qed.

(** On a value of the declared shape, the [switch] does what
    [handle_message] says of its cast. *)
Lemma handle_value_declared (v : JSON) (m : SSEMessage) (st : State) :
  as_SSEMessage v = Some m ->
  Untyped.handle_value v (untyped_state st)
  = (untyped_completion (fst (handle_message m st)),
     untyped_state (snd (handle_message m st))).
Proof.
  destruct v as [| | | | |ms]; try done. unfold as_SSEMessage.
  destruct (get_member (str "type") ms) as [[| | |t| |]|] eqn:Et; try done.
  destruct (msg_type_of t) as [ty|] eqn:Ety; [|done]. simpl.
  destruct (opt_string_field "text" ms) as [text|] eqn:Etext; [|done]. simpl.
  destruct (match get_member (str "tool_calls") ms with
            | None => Some None
            | Some (JArray vs) => Some <$> tool_calls_of vs
            | Some _ => None
            end) as [calls|] eqn:Ecalls; [|done]. simpl.
  destruct (opt_string_field "tool_name" ms) as [name|] eqn:Ename; [|done]. simpl.
  destruct (opt_string_field "result" ms) as [res|] eqn:Eres; [|done]. simpl.
  destruct (opt_string_field "content" ms) as [content|] eqn:Econtent; [|done]. simpl.
  destruct (opt_string_field "error" ms) as [err|] eqn:Eerr; [|done]. simpl.
  intros [= <-].
  apply opt_string_field_get in Etext, Ename, Eres, Eerr.
  unfold Untyped.handle_value, handle_message, get_prop.
  rewrite Et, Ety. cbn [msg_type msg_text msg_tool_calls msg_tool_name
    msg_result msg_error].
  destruct ty.
  - rewrite Etext. destruct text as [[|c text]|]; simpl; [done| |done].
    by rewrite untyped_on_content.
  - done.
  - destruct (get_member (str "tool_calls") ms) as [[| | | |vs|]|];
      try done; [|by injection Ecalls as <-].
    destruct (tool_calls_of vs) as [tcs|] eqn:Etcs; [|done].
    injection Ecalls as <-. cbn [truthy].
    destruct vs as [|v vs]; [by injection Etcs as <-|].
    destruct tcs as [|tc tcs].
    { simpl in Etcs. destruct (tool_call_of v); [|done].
      simpl in Etcs. by destruct (tool_calls_of vs). }
    unfold Untyped.on_tool_calls.
    change (Untyped.contentParts (untyped_state st))
      with (untyped_part <$> contentParts st).
    rewrite (untyped_push_tool_calls _ _ _ Etcs).
    destruct (push_tool_calls (tc :: tcs) (contentParts st)) as [parts [e|]];
      unfold untyped_state; simpl; by rewrite length_fmap.
  - done.
  - rewrite Ename, Eres.
    destruct name as [[|c name]|]; simpl; try done;
      destruct res as [[|d res]|]; simpl; try done.
    unfold Untyped.with_parts, untyped_state. simpl.
    by rewrite untyped_set_result.
  - rewrite Eerr. destruct err as [[|c e]|]; simpl; try done.
    unfold Untyped.with_parts, untyped_state. simpl. by rewrite fmap_app.
  - done.
  - done.
Qed.

Lemma untyped_yield_parts (st : State) :
  Untyped.yield_parts (untyped_state st) = untyped_snapshots (yield_parts st).
Proof.
  unfold Untyped.yield_parts, yield_parts. simpl.
  by destruct (contentParts st).
Qed.

Lemma untyped_snapshots_app (ys ys' : list Snapshot) :
  untyped_snapshots (ys ++ ys') = untyped_snapshots ys ++ untyped_snapshots ys'.
Proof. apply map_app. Qed.

Lemma process_value_declared (v : JSON) (m : SSEMessage) (st : State) :
  as_SSEMessage v = Some m ->
  Untyped.process_value v (untyped_state st)
  = (untyped_snapshots (fst (process_message m st)),
     untyped_state <$> snd (process_message m st)).
Proof.
  intros H. unfold Untyped.process_value, process_message.
  rewrite (handle_value_declared v m st H).
  destruct (handle_message m st) as [[|e|] st']; simpl; [|done|done].
  by rewrite untyped_yield_parts.
Qed.

Lemma run_values_declared (vs : list JSON) (ms : list SSEMessage) (st : State) :
  declared vs ms ->
  run_values vs (untyped_state st)
  = (untyped_snapshots (fst (run_messages ms st)),
     untyped_state <$> snd (run_messages ms st)).
Proof.
  intros H. revert st. induction H as [|v m vs ms Hv _ IH]; intros st; [done|].
  simpl. rewrite (process_value_declared v m st Hv).
  destruct (process_message m st) as [ys [st'|]]; simpl; [|done].
  rewrite IH. destruct (run_messages ms st') as [ys' r]. simpl.
  by rewrite untyped_snapshots_app.
Qed.

(** * Further properties of the decoder *)

(** ** White space around a line *)

Lemma trimStart_blank (s : jsstring) : blank s -> trimStart s = [].
Proof. induction 1 as [|c s Hc _ IH]; simpl; [done|]. by rewrite Hc. Qed.

Lemma trimStart_blank_app (pre s : jsstring) :
  blank pre -> trimStart (pre ++ s) = trimStart s.
Proof. induction 1 as [|c pre Hc _ IH]; simpl; [done|]. by rewrite Hc. Qed.

Lemma blank_rev (s : jsstring) : blank s -> blank (rev s).
Proof. apply Forall_rev. Qed.

Lemma trimEnd_app_blank (s post : jsstring) :
  blank post -> trimEnd (s ++ post) = trimEnd s.
Proof.
  intros H. unfold trimEnd. rewrite rev_app_distr.
  by rewrite trimStart_blank_app by by apply blank_rev.
Qed.

Lemma trim_blank_around (pre s post : jsstring) :
  blank pre -> blank post -> trim (pre ++ s ++ post) = trim s.
Proof.
  intros Hpre Hpost. unfold trim.
  rewrite trimStart_blank_app by done. rewrite trimStart_app.
  destruct (trimStart s) as [|c r] eqn:E.
  - by rewrite (trimStart_blank post Hpost).
  - by apply trimEnd_app_blank.
Qed.

(** X1: white space before and after a line (a carriage return before the
    line feed, indentation) does not change what the line decodes to. *)
Theorem parseSSEData_ignores_blanks (pre line post : jsstring) :
  blank pre -> blank post ->
  parseSSEData (pre ++ line ++ post) = parseSSEData line.
Proof.
  intros Hpre Hpost.
  by rewrite !parseSSEData_trimmed, (trim_blank_around pre line post).
Qed.

Lemma parseSSEData_ignores_blanks_witness :
  parseSSEData ([32; 9] ++ wire "data: {'type':'thinking'}" ++ [13])
  = parseSSEData (wire "data: {'type':'thinking'}").
Proof.
  apply (parseSSEData_ignores_blanks [32; 9] _ [13]);
    repeat constructor.
Defined.

(** X2: a line ["data: " ++ payload] whose payload, without its trailing
    white space, is JSON text decodes to the parsed value; it is an event
    exactly when that value is truthy ([null], [false], [0] and the empty
    string are dropped). *)
Theorem data_line_value (payload : jsstring) (v : JSON) :
  JSON_parse (trimEnd payload) = Some v ->
  parseSSEData (str "data: " ++ payload) = v
  /\ decode_lines [str "data: " ++ payload] = if truthy v then [v] else [].
Proof.
  intros Hv.
  assert (Hline : parseSSEData (str "data: " ++ payload) = v).
  { rewrite parseSSEData_trimmed, trim_data_line.
    destruct (trimEnd payload) as [|c d] eqn:E; [discriminate Hv|].
    rewrite startsWith_app.
    change (slice 6 (str "data: " ++ c :: d)) with (c :: d).
    destruct (str_eqb (c :: d) (str "[DONE]")) eqn:Ed.
    - apply str_eqb_eq in Ed. rewrite Ed in Hv. discriminate Hv.
    - by rewrite Hv. }
  split; [exact Hline|]. by rewrite decode_lines_single, Hline.
Qed.

Lemma data_line_value_witness :
  parseSSEData (str "data: " ++ wire "null ") = JNull
  /\ decode_lines [str "data: " ++ wire "null "] = [].
Proof. apply (data_line_value (wire "null ") JNull). reflexivity. Defined.

(** ** Lines without a line feed *)

Lemma split_lines_no_LF (s : jsstring) : 10 ∉ s -> split_lines s = [s].
Proof.
  induction s as [|c s IH]; [done|]. intros Hc.
  apply not_elem_of_cons in Hc as [Hc Hs]. rewrite split_lines_cons.
  destruct (c =? 10) eqn:E; [apply N.eqb_eq in E; congruence|].
  by rewrite (IH Hs).
Qed.

Lemma split_lines_single_app (a b : jsstring) :
  split_lines a = [a] -> split_lines b = [b] ->
  split_lines (a ++ b) = [a ++ b].
Proof.
  intros Ha Hb. rewrite split_lines_app, Ha. simpl.
  induction a as [|c a IH]; [exact Hb|].
  rewrite split_lines_cons in Ha. rewrite <- app_comm_cons, split_lines_cons.
  destruct (c =? 10); [discriminate Ha|].
  destruct (split_lines a) as [|h t] eqn:E; [by destruct (split_lines_nonempty a)|].
  injection Ha as -> ->. by rewrite IH.
Qed.

Lemma split_lines_line (l rest : jsstring) :
  10 ∉ l -> split_lines (l ++ 10 :: rest) = l :: split_lines rest.
Proof.
  induction l as [|c l IH]; [done|]. intros Hc.
  apply not_elem_of_cons in Hc as [Hc Hl].
  rewrite <- app_comm_cons, split_lines_cons, (IH Hl).
  destruct (c =? 10) eqn:E; [apply N.eqb_eq in E; congruence|done].
Qed.

Lemma split_lines_terminated (lines : list jsstring) :
  Forall (fun l => 10 ∉ l) lines ->
  split_lines (List.concat (map (fun l => l ++ LF) lines)) = lines ++ [[]].
Proof.
  induction 1 as [|l lines Hl _ IH]; [done|]. simpl.
  rewrite <- app_assoc. change (LF ++ ?r) with (10 :: r).
  by rewrite (split_lines_line l _ Hl), IH.
Qed.

(** X3: text after the last line feed is never decoded: a last chunk
    without a line feed adds no event, and [run] gives what it gives without
    that chunk. *)
Theorem unterminated_tail_ignored (cs : list jsstring) (tail : jsstring) :
  10 ∉ tail ->
  decode_chunks (cs ++ [tail]) = decode_chunks cs
  /\ forall ok status statusText fail,
       run (Response ok status statusText
              (Some {| chunks := cs ++ [tail]; failure := fail |}))
       = run (Response ok status statusText
                (Some {| chunks := cs; failure := fail |})).
Proof.
  intros Htail.
  assert (H : decode_chunks (cs ++ [tail]) = decode_chunks cs).
  { unfold decode_chunks. rewrite !decode_from_complete_lines by reflexivity.
    rewrite concat_app. cbn [List.concat app]. rewrite app_nil_r.
    cbn [app]. rewrite split_lines_app.
    rewrite (split_lines_single_app _ tail (split_lines_held _)
               (split_lines_no_LF tail Htail)).
    rewrite removelast_app by done. simpl. by rewrite app_nil_r. }
  split; [exact H|]. intros [|] status statusText fail; [|done].
  unfold run. cbn [chunks failure].
  rewrite !read_loop_decode by reflexivity.
  change (decode_from [] ?x) with (decode_chunks x). by rewrite H.
Qed.

Lemma unterminated_tail_ignored_witness :
  decode_chunks [wire "data: {'type':'thinking'}" ++ LF; str "data: [DONE]"]
  = decode_chunks [wire "data: {'type':'thinking'}" ++ LF].
Proof.
  apply (unterminated_tail_ignored
           [wire "data: {'type':'thinking'}" ++ LF] (str "data: [DONE]")).
  vm_compute. intros H. repeat (apply elem_of_cons in H as [H|H]; [discriminate H|]).
  by apply elem_of_nil in H.
Defined.

(** X4: when every line is followed by its line feed, the decoder sees
    exactly these lines, once each and in order, wherever the chunks are
    cut. *)
Theorem terminated_lines_decoded (lines : list jsstring) (cs : list jsstring) :
  Forall (fun l => 10 ∉ l) lines ->
  List.concat cs = List.concat (map (fun l => l ++ LF) lines) ->
  decode_chunks cs = decode_lines lines.
Proof.
  intros Hlines Hcs. unfold decode_chunks.
  rewrite decode_from_complete_lines by reflexivity. cbn [app].
  rewrite Hcs, (split_lines_terminated lines Hlines).
  by rewrite removelast_app, app_nil_r.
Qed.

Lemma terminated_lines_decoded_witness :
  decode_chunks [str "data: [DO"; str "NE]" ++ LF ++ str ": x"; LF]
  = decode_lines [str "data: [DONE]"; str ": x"].
Proof.
  apply (terminated_lines_decoded [str "data: [DONE]"; str ": x"]);
    [|reflexivity].
  repeat constructor; vm_compute; intros H;
    repeat (apply elem_of_cons in H as [H|H]; [discriminate H|]);
    by apply elem_of_nil in H.
Defined.

(** * Invariants of the assembler *)

(** ** Parts are only added and evolved *)

Lemma evolves_refl (p : ContentPart) : evolves p p.
Proof. destruct p; simpl; [exists []; by rewrite app_nil_r | done]. Qed.

Lemma evolves_trans (p q r : ContentPart) :
  evolves p q -> evolves q r -> evolves p r.
Proof.
  destruct p, q, r; simpl; try done.
  - intros [x ->] [y ->]. exists (x ++ y). by rewrite app_assoc.
  - intros (-> & -> & -> & ->) (-> & -> & -> & ->). done.
Qed.

Lemma evolves_all_refl (l : list ContentPart) : Forall2 evolves l l.
Proof. apply Forall_Forall2_diag, Forall_forall. intros. apply evolves_refl. Qed.

Lemma extends_same_length (a b : list ContentPart) :
  Forall2 evolves a b -> extends a b.
Proof. intros H. exists b, []. by rewrite app_nil_r. Qed.

Lemma extends_refl (l : list ContentPart) : extends l l.
Proof. apply extends_same_length, evolves_all_refl. Qed.

Lemma extends_app (l added : list ContentPart) : extends l (l ++ added).
Proof. exists l, added. split; [done | apply evolves_all_refl]. Qed.

Lemma extends_trans (a b c : list ContentPart) :
  extends a b -> extends b c -> extends a c.
Proof.
  intros (k1 & a1 & -> & H1) (k2 & a2 & -> & H2).
  apply Forall2_app_inv_l in H2 as (k2a & k2b & Ha & Hb & ->).
  exists k2a, (k2b ++ a2). split; [by rewrite app_assoc|].
  eapply Forall2_trans; [|exact H1|exact Ha]. apply evolves_trans.
Qed.

Lemma extends_length (a b : list ContentPart) :
  extends a b -> (length a <= length b)%nat.
Proof.
  intros (k & added & -> & H). rewrite length_app, (Forall2_length _ _ _ H). lia.
Qed.

Lemma evolves_insert_text (parts : list ContentPart) (i : nat)
    (t x : jsstring) :
  parts !! i = Some (TextPart t) ->
  Forall2 evolves parts (<[i := TextPart (t ++ x)]> parts).
Proof.
  intros Hi. rewrite <- (list_insert_id parts i (TextPart t) Hi) at 1.
  apply Forall2_insert; [apply evolves_all_refl | by exists x].
Qed.

Lemma evolves_set_result (name res : jsstring) (parts : list ContentPart) :
  Forall2 evolves parts (set_result name res parts).
Proof.
  induction parts as [|[t | i n a raw r] parts IH]; simpl.
  - constructor.
  - constructor; [apply evolves_refl | exact IH].
  - destruct (str_eqb n name).
    + constructor; [done | apply evolves_all_refl].
    + constructor; [done | exact IH].
Qed.

Lemma push_tool_calls_appends (calls : list ToolCallData)
    (parts : list ContentPart) :
  exists ps, fst (push_tool_calls calls parts) = parts ++ ps.
Proof.
  revert parts. induction calls as [|tc calls IH]; intros parts; simpl.
  - exists []. by rewrite app_nil_r.
  - destruct (tool_call_part tc) as [p|].
    + destruct (IH (parts ++ [p])) as [ps Hps]. exists (p :: ps).
      by rewrite Hps, <- app_assoc.
    + exists []. by rewrite app_nil_r.
Qed.

Lemma on_content_extends (text : jsstring) (st : State) :
  extends (contentParts st) (contentParts (on_content text st)).
Proof.
  unfold on_content. destruct (open_text st) as [t|] eqn:E; simpl.
  - apply extends_same_length, evolves_insert_text.
    by apply open_text_lookup.
  - apply extends_app.
Qed.

Lemma step_extends (m : SSEMessage) (st : State) :
  extends (contentParts st) (contentParts (snd (handle_message m st))).
Proof.
  unfold handle_message. destruct (msg_type m).
  - destruct (msg_text m) as [[|c text]|]; simpl;
      [apply extends_refl | apply on_content_extends | apply extends_refl].
  - apply extends_refl.
  - destruct (msg_tool_calls m) as [[|tc calls]|];
      [apply extends_refl | | apply extends_refl].
    destruct (push_tool_calls_appends (tc :: calls) (contentParts st))
      as [ps Hps].
    destruct (push_tool_calls (tc :: calls) (contentParts st))
      as [parts [e|]]; cbn [fst] in Hps; subst parts; apply extends_app.
  - apply extends_refl.
  - destruct (msg_tool_name m) as [[|c name]|],
             (msg_result m) as [[|d res]|]; simpl;
      try apply extends_refl.
    apply extends_same_length, evolves_set_result.
  - destruct (msg_error m) as [[|c e]|]; simpl;
      [apply extends_refl | apply extends_app | apply extends_refl].
  - apply extends_refl.
  - apply extends_refl.
Qed.

(** X5: no event, whether it completes or throws, removes a part or moves
    one to another index. After the event every earlier part is still at its
    index: a text part with its text possibly longer at the end, a tool-call
    part with the same id, name and arguments. *)
Theorem handle_message_extends (m : SSEMessage) (st : State) :
  extends (contentParts st) (contentParts (snd (handle_message m st)))
  /\ (length (contentParts st)
      <= length (contentParts (snd (handle_message m st))))%nat.
Proof.
  split; [apply step_extends | apply extends_length, step_extends].
Qed.

(** ** The snapshots of a run *)

Lemma untyped_evolves_refl (p : Untyped.Part) : Untyped.evolves p p.
Proof. destruct p; simpl; [exists []; by rewrite app_nil_r | done]. Qed.

Lemma untyped_evolves_trans (p q r : Untyped.Part) :
  Untyped.evolves p q -> Untyped.evolves q r -> Untyped.evolves p r.
Proof.
  destruct p, q, r; simpl; try done.
  - intros [x ->] [y ->]. exists (x ++ y). by rewrite app_assoc.
  - intros (-> & -> & -> & ->) (-> & -> & -> & ->). done.
Qed.

Lemma untyped_evolves_all_refl (l : list Untyped.Part) :
  Forall2 Untyped.evolves l l.
Proof.
  apply Forall_Forall2_diag, Forall_forall. intros. apply untyped_evolves_refl.
Qed.

Lemma untyped_extends_same_length (a b : list Untyped.Part) :
  Forall2 Untyped.evolves a b -> Untyped.extends a b.
Proof. intros H. exists b, []. by rewrite app_nil_r. Qed.

Lemma untyped_extends_refl (l : list Untyped.Part) : Untyped.extends l l.
Proof. apply untyped_extends_same_length, untyped_evolves_all_refl. Qed.

Lemma untyped_extends_app (l added : list Untyped.Part) :
  Untyped.extends l (l ++ added).
Proof. exists l, added. split; [done | apply untyped_evolves_all_refl]. Qed.

Lemma untyped_extends_trans (a b c : list Untyped.Part) :
  Untyped.extends a b -> Untyped.extends b c -> Untyped.extends a c.
Proof.
  intros (k1 & a1 & -> & H1) (k2 & a2 & -> & H2).
  apply Forall2_app_inv_l in H2 as (k2a & k2b & Ha & Hb & ->).
  exists k2a, (k2b ++ a2). split; [by rewrite app_assoc|].
  eapply Forall2_trans; [|exact H1|exact Ha]. apply untyped_evolves_trans.
Qed.

Lemma untyped_open_text_lookup (st : Untyped.State) (t : jsstring) :
  Untyped.open_text st = Some t ->
  (0 <= Untyped.currentTextIndex st)%Z
  /\ Untyped.contentParts st !! Z.to_nat (Untyped.currentTextIndex st)
     = Some (Untyped.Text t).
Proof.
  unfold Untyped.open_text, Untyped.at_index.
  destruct (Untyped.currentTextIndex st =? -1)%Z; [done|].
  destruct (Untyped.currentTextIndex st <? 0)%Z eqn:E; [done|].
  apply Z.ltb_ge in E.
  destruct (Untyped.contentParts st !! Z.to_nat (Untyped.currentTextIndex st))
    as [[t'|]|]; try done.
  by intros [= ->].
Qed.

Lemma untyped_on_content_extends (text : jsstring) (st : Untyped.State) :
  Untyped.extends (Untyped.contentParts st)
    (Untyped.contentParts (Untyped.on_content text st)).
Proof.
  unfold Untyped.on_content. destruct (Untyped.open_text st) as [t|] eqn:E; simpl.
  - apply untyped_extends_same_length.
    destruct (untyped_open_text_lookup st t E) as [_ Hi].
    rewrite <- (list_insert_id _ _ _ Hi) at 1.
    apply Forall2_insert; [apply untyped_evolves_all_refl | by exists text].
  - apply untyped_extends_app.
Qed.

Lemma untyped_push_tool_calls_appends (tcs : list JSON)
    (parts : list Untyped.Part) :
  exists ps, fst (Untyped.push_tool_calls tcs parts) = parts ++ ps.
Proof.
  revert parts. induction tcs as [|tc tcs IH]; intros parts; simpl.
  - exists []. by rewrite app_nil_r.
  - destruct (Untyped.tool_call_part tc) as [p|].
    + destruct (IH (parts ++ [p])) as [ps Hps]. exists (p :: ps).
      by rewrite Hps, <- app_assoc.
    + exists []. by rewrite app_nil_r.
Qed.

Lemma untyped_on_tool_calls_extends (calls : JSON) (st : Untyped.State) :
  Untyped.extends (Untyped.contentParts st)
    (Untyped.contentParts (snd (Untyped.on_tool_calls calls st))).
Proof.
  unfold Untyped.on_tool_calls.
  destruct calls as [| b | neg m e | [|c s] | [|tc tcs] | ms];
    try apply untyped_extends_refl.
  - destruct (untyped_push_tool_calls_appends (tc :: tcs) (Untyped.contentParts st))
      as [ps Hps].
    destruct (Untyped.push_tool_calls (tc :: tcs) (Untyped.contentParts st))
      as [parts [|]]; cbn [fst] in Hps; subst parts; apply untyped_extends_app.
  - destruct (gt_zero _) as [[|]|]; apply untyped_extends_refl.
Qed.

Lemma untyped_set_result_evolves (name res : JSON) (parts : list Untyped.Part) :
  Forall2 Untyped.evolves parts (Untyped.set_result name res parts).
Proof.
  induction parts as [|[t | i n a raw r] parts IH]; simpl.
  - constructor.
  - constructor; [apply untyped_evolves_refl | exact IH].
  - destruct (strict_equal n name).
    + constructor; [done | apply untyped_evolves_all_refl].
    + constructor; [done | exact IH].
Qed.

(** No value of a frame, whether its handling completes or throws, removes a
    part or moves one to another index. *)
Lemma handle_value_extends (v : JSON) (st : Untyped.State) :
  Untyped.extends (Untyped.contentParts st)
    (Untyped.contentParts (snd (Untyped.handle_value v st))).
Proof.
  unfold Untyped.handle_value.
  repeat case_match; subst;
    first [ apply untyped_extends_refl
          | apply untyped_on_content_extends
          | apply untyped_on_tool_calls_extends
          | apply untyped_extends_same_length, untyped_set_result_evolves
          | apply untyped_extends_app ].
Qed.

Lemma process_value_step (v : JSON) (st : Untyped.State)
    (ys : list Untyped.Snapshot) (o : option Untyped.State) :
  Untyped.process_value v st = (ys, o) ->
  match o with
  | Some st1 =>
      Untyped.extends (Untyped.contentParts st) (Untyped.contentParts st1)
      /\ (ys = []
          \/ (ys = [Untyped.contentParts st1] /\ Untyped.contentParts st1 <> []))
  | None => ys = []
  end.
Proof.
  unfold Untyped.process_value. pose proof (handle_value_extends v st) as Hext.
  destruct (Untyped.handle_value v st) as [[| |] st1]; intros [= <- <-];
    [|by split; [|left]|done].
  split; [exact Hext|]. unfold Untyped.yield_parts.
  destruct (Untyped.contentParts st1); [by left | by right].
Qed.

Lemma run_values_snapshots (vs : list JSON) (st : Untyped.State)
    (ys : list Untyped.Snapshot) (r : option Untyped.State) :
  run_values vs st = (ys, r) ->
  Forall (fun y => y <> []) ys
  /\ StronglySorted Untyped.extends (Untyped.contentParts st :: ys)
  /\ forall st', r = Some st' ->
       Forall (fun y => Untyped.extends y (Untyped.contentParts st'))
         (Untyped.contentParts st :: ys).
Proof.
  revert st ys r. induction vs as [|v vs IH]; intros st ys r; simpl.
  - intros [= <- <-]. split; [constructor|]. split.
    + repeat constructor.
    + intros st' [= <-]. repeat constructor. apply untyped_extends_refl.
  - destruct (Untyped.process_value v st) as [y1 [st1|]] eqn:Hp;
      apply process_value_step in Hp.
    + destruct Hp as [Hext Hy1].
      destruct (run_values vs st1) as [ys' r'] eqn:Hrun.
      intros [= <- <-]. destruct (IH _ _ _ Hrun) as (Hne & Hsorted & Hfinal).
      apply StronglySorted_inv in Hsorted as [Hsorted Hfirst].
      assert (Hall : Forall (Untyped.extends (Untyped.contentParts st))
                       (Untyped.contentParts st1 :: ys')).
      { constructor; [exact Hext|].
        eapply Forall_impl; [exact Hfirst|]. intros y Hy.
        by eapply untyped_extends_trans. }
      assert (Hfinal' : forall st', r' = Some st' ->
                Untyped.extends (Untyped.contentParts st)
                  (Untyped.contentParts st')).
      { intros st' Hr. specialize (Hfinal st' Hr).
        apply Forall_cons in Hfinal as [H1 _]. by eapply untyped_extends_trans. }
      destruct Hy1 as [-> | [-> Hne1]]; simpl.
      * split; [exact Hne|]. split.
        -- constructor; [exact Hsorted|]. by apply Forall_cons in Hall as [_ ?].
        -- intros st' Hr. constructor; [by apply Hfinal'|].
           specialize (Hfinal st' Hr). by apply Forall_cons in Hfinal as [_ ?].
      * split; [by constructor|]. split.
        -- constructor; [by constructor | exact Hall].
        -- intros st' Hr. constructor; [by apply Hfinal' | by apply Hfinal].
    + subst y1. intros [= <- <-]. split; [constructor|]. split.
      * repeat constructor.
      * intros st' [=].
Qed.

Lemma StronglySorted_snoc {A} (R : A -> A -> Prop) (l : list A) (x : A) :
  StronglySorted R l -> Forall (fun y => R y x) l ->
  StronglySorted R (l ++ [x]).
Proof.
  induction 1 as [|a l Hl IH Ha]; intros Hx; simpl.
  - repeat constructor.
  - apply Forall_cons in Hx as [Hax Hx]. constructor; [by apply IH|].
    apply Forall_app. split; [exact Ha | by constructor].
Qed.

Lemma conclude_snapshots (fail : option Exn) (vs : list JSON) :
  Forall (fun y => y <> [])
    (yields (conclude fail (run_values vs Untyped.initial_state)))
  /\ StronglySorted Untyped.extends
       (yields (conclude fail (run_values vs Untyped.initial_state))).
Proof.
  destruct (run_values vs Untyped.initial_state) as [ys r] eqn:Hrun.
  destruct (run_values_snapshots _ _ _ _ Hrun) as (Hne & Hsorted & Hfinal).
  apply StronglySorted_inv in Hsorted as [Hsorted _].
  unfold conclude. destruct r as [st'|]; [|done].
  destruct fail as [e|]; [done|]. simpl. unfold Untyped.yield_parts.
  destruct (Untyped.contentParts st') as [|p ps] eqn:E; [by rewrite app_nil_r|].
  split.
  - apply Forall_app. split; [exact Hne | by repeat constructor].
  - apply StronglySorted_snoc; [exact Hsorted|].
    specialize (Hfinal st' eq_refl). rewrite E in Hfinal.
    by apply Forall_cons in Hfinal as [_ ?].
Qed.

(** X6: in every run, whatever the transport answers and whatever the
    frames hold, no snapshot is empty, and every snapshot extends all the
    snapshots yielded before it: the parts of an earlier snapshot are found
    at the same indices, text grown at its end, tool calls with the same id,
    name and arguments. *)
Theorem run_snapshots_grow (f : Fetch) :
  Forall (fun y => y <> []) (yields (run f))
  /\ StronglySorted Untyped.extends (yields (run f)).
Proof.
  destruct f as [e | [|] status statusText [b|]];
    try (split; constructor).
  unfold run. rewrite read_loop_decode by reflexivity.
  apply conclude_snapshots.
Qed.

(** ** The open-text index *)

Lemma set_result_text_lookup (name res : jsstring) (parts : list ContentPart)
    (i : nat) (t : jsstring) :
  parts !! i = Some (TextPart t) ->
  set_result name res parts !! i = Some (TextPart t).
Proof.
  revert i. induction parts as [|[t' | j n a raw r] parts IH];
    intros [|i] Hi; simpl in *; try done.
  - by apply IH.
  - destruct (str_eqb n name); [done | by apply IH].
Qed.

Lemma index_valid_app (parts added : list ContentPart) (i k : Z) :
  index_valid {| contentParts := parts; currentTextIndex := i;
                 toolCallsIndex := k |} ->
  forall k', index_valid {| contentParts := parts ++ added;
                            currentTextIndex := i; toolCallsIndex := k' |}.
Proof.
  intros [H | (t & Hpos & Hl)] k'; [by left|]. right. exists t. simpl in *.
  split; [exact Hpos | by apply lookup_app_l_Some].
Qed.

Lemma index_valid_step (m : SSEMessage) (st : State) :
  index_valid st -> index_valid (snd (handle_message m st)).
Proof.
  intros Hv. unfold handle_message. destruct (msg_type m); try exact Hv.
  - destruct (msg_text m) as [[|c text]|]; try exact Hv.
    cbn [snd]. unfold on_content.
    destruct (open_text st) as [t|] eqn:E; right.
    + destruct (open_text_lookup st t E) as [Hpos Hl].
      exists (t ++ c :: text). split; [exact Hpos|]. simpl.
      apply list_lookup_insert_eq. by eapply lookup_lt_Some.
    + exists (c :: text). simpl. split; [lia|].
      rewrite Nat2Z.id, lookup_app_r by lia. by rewrite Nat.sub_diag.
  - destruct (msg_tool_calls m) as [[|tc calls]|]; try exact Hv.
    destruct (push_tool_calls_appends (tc :: calls) (contentParts st))
      as [ps Hps].
    destruct (push_tool_calls (tc :: calls) (contentParts st))
      as [parts [e|]]; cbn [fst] in Hps; subst parts; cbn [snd]; [|by left].
    destruct st as [parts i k]. exact (index_valid_app _ _ _ _ Hv _).
  - destruct (msg_tool_name m) as [[|c name]|],
             (msg_result m) as [[|d res]|]; try exact Hv.
    cbn [snd]. destruct Hv as [H | (t & Hpos & Hl)]; [by left|].
    right. exists t. split; [exact Hpos|]. by apply set_result_text_lookup.
  - destruct (msg_error m) as [[|c e]|]; try exact Hv.
    cbn [snd]. destruct st as [parts i k]. exact (index_valid_app _ _ _ _ Hv _).
Qed.

Lemma run_messages_index_valid (ms : list SSEMessage) (st st' : State)
    (ys : list Snapshot) :
  index_valid st -> run_messages ms st = (ys, Some st') -> index_valid st'.
Proof.
  revert st ys. induction ms as [|m ms IH]; intros st ys Hv; simpl.
  - by intros [= _ <-].
  - pose proof (index_valid_step m st Hv) as Hstep.
    unfold process_message.
    destruct (handle_message m st) as [[|e|] st1]; simpl in Hstep; [| |done].
    + destruct (run_messages ms st1) as [ys' r'] eqn:Hrun.
      intros [= _ ->]. by eapply IH.
    + destruct (run_messages ms st1) as [ys' r'] eqn:Hrun.
      intros [= _ ->]. by eapply IH.
Qed.

(** X7: after any sequence of events from the initial state, the open-text
    index is [-1] or the index of a text part of the list. So the two further
    tests of [case "content"] (no part at the index, a part that is not text)
    never decide: a text part is open exactly when the index is not [-1]. *)
Theorem open_index_never_dangles (ms : list SSEMessage) (st : State)
    (ys : list Snapshot) :
  run_messages ms initial_state = (ys, Some st) ->
  index_valid st
  /\ (open_text st = None <-> currentTextIndex st = (-1)%Z).
Proof.
  intros Hrun.
  assert (Hv : index_valid st).
  { eapply run_messages_index_valid; [|exact Hrun]. by left. }
  split; [exact Hv|]. split; [|apply open_text_closed].
  intros Hnone. destruct Hv as [H | (t & Hpos & Hl)]; [exact H|].
  destruct st as [parts i k]. simpl in *.
  by rewrite (open_text_at parts i t k Hpos Hl) in Hnone.
Qed.

Lemma open_index_never_dangles_witness :
  index_valid
    {| contentParts := [TextPart (str "A"); TextPart (tool_error_text (str "boom"))];
       currentTextIndex := 0; toolCallsIndex := -1 |}.
Proof.
  apply (open_index_never_dangles
           [ContentDelta (str "A"); ToolError (str "boom")] _
           [[TextPart (str "A")];
            [TextPart (str "A"); TextPart (tool_error_text (str "boom"))]]).
  reflexivity.
Defined.

(** ** Content *)

Lemma handle_content (text : jsstring) (st : State) :
  text <> [] ->
  handle_message (ContentDelta text) st = (Normal, on_content text st).
Proof. by destruct text. Qed.

Lemma open_text_on_content (text : jsstring) (st : State) :
  open_text (on_content text st) = Some (default [] (open_text st) ++ text).
Proof.
  unfold on_content. destruct (open_text st) as [t|] eqn:E; simpl.
  - destruct (open_text_lookup st t E) as [Hpos Hl].
    apply open_text_at; [exact Hpos|].
    apply list_lookup_insert_eq. by eapply lookup_lt_Some.
  - apply open_text_at; [lia|].
    rewrite Nat2Z.id, lookup_app_r by lia. by rewrite Nat.sub_diag.
Qed.

Lemma on_content_twice (a b : jsstring) (st : State) :
  on_content b (on_content a st) = on_content (a ++ b) st.
Proof.
  unfold on_content at 1. rewrite open_text_on_content.
  unfold on_content. destruct (open_text st) as [t|] eqn:E; simpl.
  - by rewrite list_insert_insert_eq, app_assoc.
  - rewrite Nat2Z.id, insert_app_r_alt by lia.
    by rewrite Nat.sub_diag.
Qed.

(** X8: two content deltas in a row leave the state that the one delta with
    the concatenated text leaves, whatever the state before and also when one
    of the texts is empty. *)
Theorem content_deltas_merge (a b : jsstring) (st : State) :
  snd (handle_message (ContentDelta b) (snd (handle_message (ContentDelta a) st)))
  = snd (handle_message (ContentDelta (a ++ b)) st).
Proof.
  destruct a as [|c a].
  - reflexivity.
  - rewrite (handle_content (c :: a)) by done. cbn [snd].
    destruct b as [|d b].
    + rewrite app_nil_r. by rewrite (handle_content (c :: a)).
    + rewrite !handle_content by done. cbn [snd]. apply on_content_twice.
Qed.

Lemma run_content_deltas (ts : list jsstring) (t : jsstring) (k : Z) :
  exists ys,
    run_messages (map ContentDelta ts)
      {| contentParts := [TextPart t]; currentTextIndex := 0;
         toolCallsIndex := k |}
    = (ys, Some {| contentParts := [TextPart (t ++ List.concat ts)];
                   currentTextIndex := 0; toolCallsIndex := k |}).
Proof.
  revert t. induction ts as [|d ts IH]; intros t; simpl.
  - exists []. by rewrite app_nil_r.
  - unfold process_message.
    destruct d as [|c d].
    + simpl. destruct (IH t) as [ys ->]. by eexists.
    + rewrite handle_content by done. unfold on_content. simpl.
      destruct (IH (t ++ c :: d)) as [ys ->].
      eexists. by rewrite <- app_assoc.
Qed.

(** X9: a turn that streams only content deltas ends with one text part
    whose text is the concatenation of all the deltas, in order (and with no
    part at all when every delta is empty). *)
Theorem content_stream_reassembled (ts : list jsstring) :
  exists ys st,
    run_messages (map ContentDelta ts) initial_state = (ys, Some st)
    /\ contentParts st
       = match List.concat ts with
         | [] => []
         | c :: text => [TextPart (c :: text)]
         end.
Proof.
  induction ts as [|d ts IH]; simpl.
  - by eexists _, _.
  - unfold process_message. destruct d as [|c d].
    + simpl. destruct IH as (ys & st & -> & Hst). by eexists _, _.
    + rewrite handle_content by done. unfold on_content. simpl.
      change (Z.of_nat 0) with 0%Z.
      destruct (run_content_deltas ts (c :: d) (-1)) as [ys ->].
      by eexists _, _.
Qed.

(** ** The end of the turn *)

Lemma run_messages_app (ms1 ms2 : list SSEMessage) (st : State) :
  run_messages (ms1 ++ ms2) st =
    match run_messages ms1 st with
    | (ys, Some st') =>
        let '(ys', r) := run_messages ms2 st' in (ys ++ ys', r)
    | (ys, None) => (ys, None)
    end.
Proof.
  revert st. induction ms1 as [|m ms1 IH]; intros st; simpl.
  - by destruct (run_messages ms2 st).
  - destruct (process_message m st) as [ys [st1|]]; [|done].
    rewrite IH. destruct (run_messages ms1 st1) as [ys1 [st2|]]; [|done].
    destruct (run_messages ms2 st2) as [ys2 r2]. by rewrite app_assoc.
Qed.

(** X10: the end-of-turn event ends the turn: the events after it are not
    handled and there is no final snapshot, so that the snapshots are those
    of the events before it. *)
Theorem events_after_done_ignored (ms rest : list SSEMessage) :
  assemble (ms ++ StreamDone :: rest) = fst (run_messages ms initial_state).
Proof.
  unfold assemble. rewrite run_messages_app.
  destruct (run_messages ms initial_state) as [ys [st|]]; [|done].
  simpl. by rewrite app_nil_r.
Qed.

(** ** How a run ends *)

Lemma conclude_throws (fail : option Exn)
    (r : list Untyped.Snapshot * option Untyped.State) (e : Exn) :
  outcome (conclude fail r) = Throws e ->
  fail = Some e /\ isAbortError e = false.
Proof.
  unfold conclude, outer_catch. destruct r as [ys [st|]]; [|done].
  destruct fail as [e0|]; [|done]. simpl.
  destruct (isAbortError e0) eqn:E; [done|]. by intros [= <-].
Qed.

(** X11: [run] throws only what the transport gave it: a rejected [fetch], a
    response that is not ok, a response without a body, or a rejected read of
    the body, and never an abort. No content of the stream makes it throw,
    whatever the frames hold. *)
Theorem run_throws_only_transport_failures (f : Fetch) (e : Exn) :
  outcome (run f) = Throws e ->
  isAbortError e = false
  /\ (f = Rejected e
      \/ (exists status statusText body,
            f = Response false status statusText body
            /\ e = JSError (str "Error")
                     (str "API error: " ++ N_to_jsstring status ++ str " "
                      ++ statusText))
      \/ (exists status statusText,
            f = Response true status statusText None
            /\ e = JSError (str "Error") (str "No response body"))
      \/ (exists status statusText b,
            f = Response true status statusText (Some b)
            /\ failure b = Some e)).
Proof.
  assert (Hcatch : forall e0, outer_catch e0 = Throws e ->
            isAbortError e = false /\ e0 = e).
  { intros e0. unfold outer_catch.
    destruct (isAbortError e0) eqn:E; [done|]. by intros [= <-]. }
  destruct f as [e0 | [|] status statusText [b|]]; simpl.
  - intros H. apply Hcatch in H as [H ->]. by split; [|left].
  - rewrite read_loop_decode by reflexivity.
    intros H. apply conclude_throws in H as [Hf H]. split; [exact H|].
    do 3 right. by eexists _, _, _.
  - intros H. apply Hcatch in H as [H <-]. split; [exact H|].
    right. right. left. by eexists _, _.
  - intros H. apply Hcatch in H as [H <-]. split; [exact H|].
    right. left. by eexists _, _, _.
  - intros H. apply Hcatch in H as [H <-]. split; [exact H|].
    right. left. by eexists _, _, _.
Qed.

Lemma run_throws_only_transport_failures_witness :
  isAbortError (JSError (str "TypeError") (str "Failed to fetch")) = false.
Proof.
  eapply (run_throws_only_transport_failures
            (Rejected (JSError (str "TypeError") (str "Failed to fetch"))));
    reflexivity.
Defined.

(** X12: when the read of the body is rejected, the snapshots yielded are
    those of the same body read to its end, without the final one; the body
    read to its end makes the run return; and an abort makes the run return
    instead of throwing. This holds whatever the chunks hold. *)
Theorem rejected_read_keeps_snapshots (status : N) (statusText : jsstring)
    (cs : list jsstring) (e : Exn) :
  (exists final,
      yields (run (Response true status statusText
                     (Some {| chunks := cs; failure := None |})))
      = yields (run (Response true status statusText
                       (Some {| chunks := cs; failure := Some e |})))
        ++ final
      /\ (length final <= 1)%nat)
  /\ outcome (run (Response true status statusText
                     (Some {| chunks := cs; failure := None |}))) = Returns
  /\ (isAbortError e = true ->
      outcome (run (Response true status statusText
                      (Some {| chunks := cs; failure := Some e |}))) = Returns).
Proof.
  unfold run. cbn [chunks failure]. rewrite !read_loop_decode by reflexivity.
  destruct (run_values _ _) as [ys [st|]]; simpl.
  - split; [|split; [done|]].
    + exists (Untyped.yield_parts st). split; [done|].
      unfold Untyped.yield_parts. destruct (Untyped.contentParts st); simpl; lia.
    + unfold outer_catch. by intros ->.
  - split; [|done]. exists []. rewrite app_nil_r. split; [done | simpl; lia].
Qed.

(** ** Tool calls and their results *)

Lemma set_result_twice (name r1 r2 : jsstring) (parts : list ContentPart) :
  set_result name r2 (set_result name r1 parts) = set_result name r2 parts.
Proof.
  induction parts as [|[t | i n a raw r] parts IH]; simpl; [done| |].
  - by rewrite IH.
  - destruct (str_eqb n name) eqn:E; simpl; rewrite E; [done|].
    by rewrite IH.
Qed.

Lemma handle_tool_result (name res : jsstring) (st : State) :
  name <> [] -> res <> [] ->
  handle_message (ToolResult name res) st
  = (Normal, with_parts (set_result name res (contentParts st)) st).
Proof. by destruct name, res. Qed.

(** X13: of two results for one tool name, the second replaces the first:
    the state is the one that the second result alone leaves. *)
Theorem later_tool_result_wins (name r1 r2 : jsstring) (st : State) :
  r2 <> [] ->
  snd (handle_message (ToolResult name r2)
         (snd (handle_message (ToolResult name r1) st)))
  = snd (handle_message (ToolResult name r2) st).
Proof.
  intros Hr2. destruct name as [|c name]; [reflexivity|].
  destruct r1 as [|d r1]; [reflexivity|].
  rewrite !handle_tool_result by done. cbn [snd]. unfold with_parts. simpl.
  by rewrite set_result_twice.
Qed.

Lemma later_tool_result_wins_witness :
  snd (handle_message (ToolResult (str "search") (str "R1"))
         (snd (handle_message (ToolResult (str "search") (str "R0"))
                 (with_parts two_searches initial_state))))
  = snd (handle_message (ToolResult (str "search") (str "R1"))
           (with_parts two_searches initial_state)).
Proof. by apply (later_tool_result_wins (str "search")). Defined.

Lemma handle_tool_calls_all_parse (calls : list ToolCallData) (st : State) :
  calls <> [] -> all_parse calls ->
  exists ps,
    Forall2 announced_part calls ps
    /\ handle_message (ToolCallsAnnounced calls) st
       = (Normal, {| contentParts := contentParts st ++ ps;
                     currentTextIndex := -1;
                     toolCallsIndex := Z.of_nat (length (contentParts st)) |}).
Proof.
  intros Hne Hall.
  destruct (push_tool_calls_all_parse calls (contentParts st) Hall)
    as (ps & Hps & Hf).
  exists ps. split; [exact Hf|]. unfold handle_message, ToolCallsAnnounced.
  cbn [msg_type msg_tool_calls]. destruct calls as [|tc calls]; [done|].
  by rewrite Hps.
Qed.

(** X14: a result reaches the call it was announced for when the name is new:
    if no part has the name yet and the call is the first of its batch with
    that name, then after the batch and a result for the name the part of
    that call, at its index, carries the result, and the batch has added one
    part per call. *)
Theorem result_reaches_announced_call
    (st : State) (calls : list ToolCallData) (k : nat) (tc : ToolCallData)
    (name res : jsstring) (v : JSON) :
  (forall j q, contentParts st !! j = Some q -> is_call_named name q = false) ->
  all_parse calls ->
  calls !! k = Some tc ->
  fn_name (tc_function tc) = name ->
  (forall j tc', (j < k)%nat -> calls !! j = Some tc' ->
                 fn_name (tc_function tc') <> name) ->
  JSON_parse (raw_arguments tc) = Some v ->
  name <> [] -> res <> [] ->
  let st1 := snd (handle_message (ToolCallsAnnounced calls) st) in
  let st2 := snd (handle_message (ToolResult name res) st1) in
  contentParts st2 !! (length (contentParts st) + k)%nat
  = Some (ToolCallPart (tc_id tc) name v (raw_arguments tc) (Some res))
  /\ length (contentParts st2)
     = (length (contentParts st) + length calls)%nat.
Proof.
  intros Hold Hall Hk Hname Hfirst Hv Hn Hr st1 st2.
  assert (Hne : calls <> []) by (intros ->; done).
  destruct (handle_tool_calls_all_parse calls st Hne Hall) as (ps & Hf & Hh).
  subst st2 st1. rewrite Hh. cbn [snd].
  rewrite handle_tool_result by done. cbn [snd contentParts with_parts].
  destruct (Forall2_lookup_l _ _ _ _ _ Hf Hk) as (p & Hp & (v' & Hv' & ->)).
  rewrite Hv in Hv'. injection Hv' as <-. rewrite Hname in Hp.
  assert (Hat : (contentParts st ++ ps) !! (length (contentParts st) + k)%nat
                = Some (ToolCallPart (tc_id tc) name v (raw_arguments tc) None)).
  { rewrite lookup_app_r by lia.
    by replace (length (contentParts st) + k - length (contentParts st))%nat
      with k by lia. }
  assert (Hbefore : forall j q, (j < length (contentParts st) + k)%nat ->
            (contentParts st ++ ps) !! j = Some q ->
            is_call_named name q = false).
  { intros j q Hj Hq.
    destruct (decide (j < length (contentParts st))%nat) as [Hlt|Hge].
    - rewrite lookup_app_l in Hq by done. by eapply Hold.
    - rewrite lookup_app_r in Hq by lia.
      destruct (Forall2_lookup_r _ _ _ _ _ Hf Hq) as (tc' & Htc' & (w & _ & ->)).
      simpl. apply str_eqb_neq. eapply Hfirst; [|exact Htc']. lia. }
  destruct (set_result_first name res (contentParts st ++ ps))
    as [(i & p & Hi & Hnamed & Hmin & ->) | [Hnone _]].
  - assert (i = (length (contentParts st) + k)%nat) as ->.
    { destruct (lt_eq_lt_dec i (length (contentParts st) + k)) as [[Hlt|Heq]|Hgt].
      - by rewrite (Hbefore i p Hlt Hi) in Hnamed.
      - exact Heq.
      - specialize (Hmin _ _ Hgt Hat). simpl in Hmin.
        by rewrite str_eqb_refl in Hmin. }
    rewrite Hat in Hi. injection Hi as <-. split.
    + apply list_lookup_insert_eq. by eapply lookup_lt_Some.
    + rewrite length_insert, length_app. by rewrite <- (Forall2_length _ _ _ Hf).
  - specialize (Hnone _ _ Hat). simpl in Hnone.
    by rewrite str_eqb_refl in Hnone.
Qed.

Lemma result_reaches_announced_call_witness :
  contentParts
    (snd (handle_message (ToolResult (str "fetch") (str "R"))
            (snd (handle_message
                    (ToolCallsAnnounced
                       [announce (str "1") (str "search") None;
                        announce (str "2") (str "fetch") None])
                    (with_parts two_searches initial_state)))))
  !! (2 + 1)%nat
  = Some (ToolCallPart (str "2") (str "fetch") (JObject []) (str "{}")
            (Some (str "R"))).
Proof.
  refine (proj1 (result_reaches_announced_call
            (with_parts two_searches initial_state)
            [announce (str "1") (str "search") None;
             announce (str "2") (str "fetch") None]
            1 (announce (str "2") (str "fetch") None)
            (str "fetch") (str "R") (JObject []) _ _ eq_refl eq_refl _ eq_refl
            _ _)).
  - intros [|[|j]] q; simpl; intros [= <-]; reflexivity.
  - repeat constructor; by eexists.
  - intros [|j] tc' Hj; [|lia]. simpl. intros [= <-]. by vm_compute.
  - discriminate.
  - discriminate.
Defined.

Lemma push_tool_calls_failure (good : list ToolCallData) (bad : ToolCallData)
    (rest : list ToolCallData) (parts : list ContentPart) :
  all_parse good ->
  JSON_parse (raw_arguments bad) = None ->
  exists ps,
    Forall2 announced_part good ps
    /\ push_tool_calls (good ++ bad :: rest) parts
       = (parts ++ ps, Some SyntaxError).
Proof.
  intros Hall Hbad. revert parts.
  induction Hall as [|tc good [v Hv] _ IH]; intros parts.
  - exists []. split; [constructor|]. simpl. unfold tool_call_part.
    rewrite Hbad. simpl. by rewrite app_nil_r.
  - destruct (IH (parts ++ [ToolCallPart (tc_id tc) (fn_name (tc_function tc)) v
                              (raw_arguments tc) None])) as (ps & Hf & Hps).
    eexists (_ :: ps). split; [constructor; [by exists v | exact Hf]|].
    simpl. rewrite (tool_call_part_parsed tc v Hv), Hps.
    by rewrite <- app_assoc.
Qed.

(** X15: when the arguments of an announced call do not parse, the event
    throws a [SyntaxError] that the event's [catch] absorbs: the calls of the
    batch before that one have been appended, that call and the calls after
    it are not, the open-text index is left as it was, no snapshot is
    yielded, and the loop goes on. *)
Theorem batch_cut_at_first_failure (m : SSEMessage) (st : State)
    (good : list ToolCallData) (bad : ToolCallData) (rest : list ToolCallData) :
  msg_type m = T_tool_calls ->
  msg_tool_calls m = Some (good ++ bad :: rest) ->
  all_parse good ->
  JSON_parse (raw_arguments bad) = None ->
  exists ps,
    Forall2 announced_part good ps
    /\ handle_message m st
       = (Throw SyntaxError,
          {| contentParts := contentParts st ++ ps;
             currentTextIndex := currentTextIndex st;
             toolCallsIndex := Z.of_nat (length (contentParts st)) |})
    /\ process_message m st
       = ([], Some {| contentParts := contentParts st ++ ps;
                      currentTextIndex := currentTextIndex st;
                      toolCallsIndex := Z.of_nat (length (contentParts st)) |}).
Proof.
  intros Hty Hcalls Hall Hbad.
  destruct (push_tool_calls_failure good bad rest (contentParts st) Hall Hbad)
    as (ps & Hf & Hps).
  exists ps. split; [exact Hf|].
  assert (Hh : handle_message m st
       = (Throw SyntaxError,
          {| contentParts := contentParts st ++ ps;
             currentTextIndex := currentTextIndex st;
             toolCallsIndex := Z.of_nat (length (contentParts st)) |})).
  { unfold handle_message. rewrite Hty, Hcalls.
    destruct (good ++ bad :: rest) as [|tc tcs] eqn:E;
      [by destruct good|]. by rewrite Hps. }
  split; [exact Hh|]. unfold process_message. by rewrite Hh.
Qed.

Lemma batch_cut_at_first_failure_witness :
  exists ps,
    Forall2 announced_part [announce (str "1") (str "x") None] ps
    /\ handle_message
         (ToolCallsAnnounced
            [announce (str "1") (str "x") None;
             announce (str "2") (str "y") (Some (str "{bad"));
             announce (str "3") (str "z") None])
         initial_state
       = (Throw SyntaxError,
          {| contentParts := [] ++ ps; currentTextIndex := -1;
             toolCallsIndex := 0 |}).
Proof.
  destruct (batch_cut_at_first_failure
              (ToolCallsAnnounced
                 [announce (str "1") (str "x") None;
                  announce (str "2") (str "y") (Some (str "{bad"));
                  announce (str "3") (str "z") None])
              initial_state
              [announce (str "1") (str "x") None]
              (announce (str "2") (str "y") (Some (str "{bad")))
              [announce (str "3") (str "z") None]
              eq_refl eq_refl
              ltac:(repeat constructor; by eexists) eq_refl)
    as (ps & Hf & Hh & _).
  exists ps. by split.
Defined.

(** * The request *)

(** ** [convertToApiMessages] *)

Lemma join_cons_head (c : N) (h : jsstring) (t : list jsstring) :
  join LF ((c :: h) :: t) = c :: join LF (h :: t).
Proof. by destruct t. Qed.

Lemma join_split_lines (s : jsstring) : join LF (split_lines s) = s.
Proof.
  induction s as [|c s IH]; [done|]. rewrite split_lines_cons.
  pose proof (split_lines_nonempty s) as Hne.
  destruct (split_lines s) as [|h t]; [done|].
  destruct (c =? 10) eqn:E.
  - apply N.eqb_eq in E as ->.
    change (join LF ([] :: h :: t)) with (10 :: join LF (h :: t)).
    by rewrite IH.
  - by rewrite join_cons_head, IH.
Qed.

Lemma split_lines_join (ls : list jsstring) :
  ls <> [] -> Forall (fun l => 10 ∉ l) ls -> split_lines (join LF ls) = ls.
Proof.
  intros Hne Hls. induction Hls as [|x ls Hx Hls IH]; [done|].
  destruct ls as [|y ls].
  - by apply split_lines_no_LF.
  - change (join LF (x :: y :: ls)) with (x ++ 10 :: join LF (y :: ls)).
    rewrite (split_lines_line x _ Hx). by rewrite IH.
Qed.

(** X16: [convertToApiMessages] keeps the messages in order with their
    roles. The content of a message without text part is empty; when no text
    contains a line feed, the lines of the content are exactly the texts of
    the text parts, in order, and no other part contributes. *)
Theorem api_content_lines (messages : list ThreadMessage) (i : nat)
    (msg : ThreadMessage) :
  messages !! i = Some msg ->
  exists am,
    convertToApiMessages messages !! i = Some am
    /\ api_role am = role msg
    /\ api_content am
       = join LF (map (fun c => default [] (part_text c))
                    (List.filter is_text_part (content msg)))
    /\ (List.filter is_text_part (content msg) = [] -> api_content am = [])
    /\ (List.filter is_text_part (content msg) <> [] ->
        Forall (fun c => 10 ∉ default [] (part_text c))
          (List.filter is_text_part (content msg)) ->
        split_lines (api_content am)
        = map (fun c => default [] (part_text c))
            (List.filter is_text_part (content msg))).
Proof.
  intros Hi. eexists. unfold convertToApiMessages.
  rewrite list_lookup_fmap, Hi. split; [reflexivity|]. simpl.
  split; [reflexivity|]. split; [reflexivity|]. unfold message_texts. split.
  - by intros ->.
  - intros Hne Hlf. apply split_lines_join.
    + by destruct (List.filter is_text_part (content msg)).
    + by apply Forall_fmap.
Qed.

Lemma api_content_lines_witness :
  exists am,
    convertToApiMessages
      [{| role := str "assistant";
          content := [{| part_type := str "text"; part_text := Some (str "A") |};
                      {| part_type := str "tool-call"; part_text := None |};
                      {| part_type := str "text"; part_text := Some (str "B") |}] |}]
    !! 0%nat = Some am
    /\ split_lines (api_content am) = [str "A"; str "B"].
Proof.
  destruct (api_content_lines
              [{| role := str "assistant";
                  content := [{| part_type := str "text"; part_text := Some (str "A") |};
                              {| part_type := str "tool-call"; part_text := None |};
                              {| part_type := str "text"; part_text := Some (str "B") |}] |}]
              0 _ eq_refl) as (am & Ham & _ & _ & _ & Hlines).
  exists am. split; [exact Ham|]. apply Hlines; [discriminate|].
  repeat constructor; vm_compute; intros H;
    repeat (apply elem_of_cons in H as [H|H]; [discriminate H|]);
    by apply elem_of_nil in H.
Defined.

(** ** The enabled tools *)

Lemma includes_elem_of (l : list jsstring) (x : jsstring) :
  includes l x = true <-> x ∈ l.
Proof.
  unfold includes. rewrite existsb_exists. split.
  - intros (y & Hy & Heq). apply str_eqb_eq in Heq as ->.
    by apply list_elem_of_In.
  - intros Hx. exists x. split; [by apply list_elem_of_In | apply str_eqb_refl].
Qed.

Lemma elem_of_filter_others (id x : jsstring) (l : list jsstring) :
  x ∈ List.filter (fun y => negb (str_eqb y id)) l <-> x ∈ l /\ x <> id.
Proof.
  rewrite !list_elem_of_In, filter_In, negb_true_iff, str_eqb_neq. done.
Qed.



(** X17: what a toggle does to the enabled tools: switching a tool on makes
    it one of them and keeps the others, switching it off removes it and
    keeps the others; and a list without duplicates stays without
    duplicates. *)
Theorem handleToolToggle_members (toolId : jsstring) (enabled : bool)
    (prev : list jsstring) :
  (forall x,
      x ∈ handleToolToggle toolId enabled prev
      <-> if enabled then x ∈ prev \/ x = toolId
          else x ∈ prev /\ x <> toolId)
  /\ (NoDup prev -> NoDup (handleToolToggle toolId enabled prev)).
Proof.
  unfold handleToolToggle. destruct enabled.
  - destruct (includes prev toolId) eqn:E.
    + apply includes_elem_of in E. split; [|done].
      intros x. split; [by left | by intros [?| ->]].
    + assert (Hnot : toolId ∉ prev).
      { intros H. apply includes_elem_of in H. congruence. }
      split.
      * intros x. rewrite elem_of_app, list_elem_of_singleton. done.
      * intros Hnd. apply NoDup_app. split; [done|].
        split; [|apply NoDup_singleton].
        intros x Hx ->%list_elem_of_singleton. done.
  - split; [intros x; apply elem_of_filter_others|].
    intros Hnd. apply NoDup_ListNoDup, List.NoDup_filter.
    by apply NoDup_ListNoDup.
Qed.



(** X19: the request after a toggle: once a tool is switched on, the body
    lists it and carries the legacy flag; once the only enabled tool is
    switched off, the list is empty and the flag is off. *)
Theorem request_after_toggle (toolId : jsstring) (prev : list jsstring)
    (messages : list ThreadMessage) :
  (toolId ∈ req_enabled_tools
              (request_body (handleToolToggle toolId true prev) messages)
   /\ req_tools_enabled
        (request_body (handleToolToggle toolId true prev) messages) = true)
  /\ ((forall x, x ∈ prev -> x = toolId) ->
      req_enabled_tools
        (request_body (handleToolToggle toolId false prev) messages) = []
      /\ req_tools_enabled
           (request_body (handleToolToggle toolId false prev) messages) = false).
Proof.
  split.
  - assert (Hin : toolId ∈ handleToolToggle toolId true prev).
    { unfold handleToolToggle. destruct (includes prev toolId) eqn:E.
      - by apply includes_elem_of.
      - apply elem_of_app. right. by apply list_elem_of_singleton. }
    split; [exact Hin|]. unfold request_body. cbn [req_tools_enabled].
    destruct (handleToolToggle toolId true prev); [|done].
    by apply elem_of_nil in Hin.
  - intros Honly.
    assert (Hempty : handleToolToggle toolId false prev = []).
    { unfold handleToolToggle.
      induction prev as [|y prev IH]; [done|]. simpl.
      rewrite (Honly y) by by left. rewrite str_eqb_refl. simpl.
      apply IH. intros x Hx. apply Honly. by right. }
    unfold request_body. by rewrite Hempty.
Qed.

(** * The frames as they are at run time *)

(** ** Frames of the declared types *)

(** X21: on a body whose frames all have the declared types, [run] yields
    what the assembler yields on the events they stand for, part by part, and
    returns. What is proved of [assemble], [run_messages] and
    [handle_message] is thereby a fact about [run] on such a body. *)
Theorem run_on_declared_frames (status : N) (statusText : jsstring)
    (cs : list jsstring) (ms : list SSEMessage) :
  declared (decode_chunks cs) ms ->
  run (Response true status statusText
         (Some {| chunks := cs; failure := None |}))
  = {| yields := untyped_snapshots (assemble ms); outcome := Returns |}.
Proof.
  intros H. unfold run. cbn [chunks failure].
  rewrite read_loop_decode by reflexivity.
  change (decode_from [] cs) with (decode_chunks cs).
  change Untyped.initial_state with (untyped_state initial_state).
  rewrite (run_values_declared _ _ _ H). unfold assemble, conclude.
  destruct (run_messages ms initial_state) as [ys [st|]]; simpl; [|done].
  by rewrite untyped_snapshots_app, untyped_yield_parts.
Qed.

Lemma run_on_declared_frames_witness :
  run (Response true 200 (str "OK")
         (Some {| chunks := [search_twice]; failure := None |}))
  = {| yields :=
         untyped_snapshots
           (assemble
              [ToolCallsAnnounced [announce (str "1") (str "search") None];
               ToolResult (str "search") (str "R0");
               ToolCallsAnnounced [announce (str "2") (str "search") None];
               ToolResult (str "search") (str "R1")]);
       outcome := Returns |}.
Proof.
  apply (run_on_declared_frames 200 (str "OK") [search_twice]).
  unfold declared. vm_compute. repeat constructor.
Defined.

(** ** Frames outside the declared types *)

(** A heartbeat, an empty record, a bare [true], a [null] text: each is
    followed by a snapshot of the parts as they are. A text that is a number
    throws inside the event and yields nothing. *)
Example frames_outside_the_declared_types :
  run (Response true 200 (str "OK")
         (Some {| chunks :=
                    [wire "data: {'type':'content','text':'A'}" ++ LF
                     ++ wire "data: {'type':'ping'}" ++ LF
                     ++ wire "data: {}" ++ LF
                     ++ wire "data: true" ++ LF
                     ++ wire "data: {'type':'content','text':null}" ++ LF
                     ++ wire "data: {'type':'content','text':5}" ++ LF
                     ++ wire "data: null" ++ LF
                     ++ wire "data: {'type':'content','text':'B'}" ++ LF
                     ++ str "data: [DONE]" ++ LF];
                  failure := None |}))
  = {| yields := [[Untyped.Text (str "A")]; [Untyped.Text (str "A")];
                  [Untyped.Text (str "A")]; [Untyped.Text (str "A")];
                  [Untyped.Text (str "A")]; [Untyped.Text (str "AB")]];
       outcome := Returns |}.
Proof. reflexivity. Qed.

(** The message of a tool error is converted to a string as a template
    literal does it. *)
Example tool_error_with_a_number :
  run (Response true 200 (str "OK")
         (Some {| chunks := [wire "data: {'type':'tool_error','error':503}" ++ LF];
                  failure := None |}))
  = {| yields := [[Untyped.Text (tool_error_text (str "503"))];
                  [Untyped.Text (tool_error_text (str "503"))]];
       outcome := Returns |}.
Proof. reflexivity. Qed.

(** A batch whose second element has no [function]: the first call stays,
    the event throws, and nothing is yielded before the final snapshot. *)
Example tool_call_without_function :
  run (Response true 200 (str "OK")
         (Some {| chunks :=
                    [wire "data: {'type':'tool_calls','tool_calls':[{'id':'1','function':{'name':'x','arguments':'[1]'}},{'id':'2'}]}" ++ LF];
                  failure := None |}))
  = {| yields := [[Untyped.ToolCall (Some (JString (str "1")))
                     (Some (JString (str "x")))
                     (JArray [JNumber false 1 0]) (JString (str "[1]")) None]];
       outcome := Returns |}.
Proof. reflexivity. Qed.

(** X22: a frame that is any truthy value without one of the eight types
    (a heartbeat record, a record without [type] or with a [type] that is
    not a string, an array, a number, [true]) changes nothing and is followed
    by a snapshot of the parts as they are, if there are any. *)
Theorem unknown_type_yields_snapshot (v : JSON) (st : Untyped.State) :
  (forall t, get_prop v "type" = Some (JString t) -> msg_type_of t = None) ->
  Untyped.handle_value v st = (Untyped.Normal, st)
  /\ Untyped.process_value v st = (Untyped.yield_parts st, Some st).
Proof.
  intros H.
  assert (Hh : Untyped.handle_value v st = (Untyped.Normal, st)).
  { unfold Untyped.handle_value.
    destruct (get_prop v "type") as [[| | |t| |]|]; try done.
    by rewrite (H t eq_refl). }
  split; [exact Hh|]. unfold Untyped.process_value. by rewrite Hh.
Qed.

Lemma unknown_type_yields_snapshot_witness :
  Untyped.process_value (JObject [(str "type", JString (str "ping"))])
    {| Untyped.contentParts := [Untyped.Text (str "A")];
       Untyped.currentTextIndex := 0; Untyped.toolCallsIndex := -1 |}
  = ([[Untyped.Text (str "A")]],
     Some {| Untyped.contentParts := [Untyped.Text (str "A")];
             Untyped.currentTextIndex := 0; Untyped.toolCallsIndex := -1 |}).
Proof.
  apply (unknown_type_yields_snapshot
           (JObject [(str "type", JString (str "ping"))])).
  intros t [= <-]. reflexivity.
Defined.

(** X23: a content frame whose [text] is not a string. A falsy one ([null],
    [false], [0]) is read as absent: nothing changes and the snapshot is
    yielded. A truthy one (a number, [true], an array, a record) has no
    [substring]: the event throws, nothing changes and nothing is yielded. *)
Theorem content_text_not_a_string (v w : JSON) (st : Untyped.State) :
  get_prop v "type" = Some (JString (str "content")) ->
  get_prop v "text" = Some w ->
  (forall s, w <> JString s) ->
  Untyped.process_value v st
  = if truthy w then ([], Some st) else (Untyped.yield_parts st, Some st).
Proof.
  intros Hty Htext Hw. unfold Untyped.process_value, Untyped.handle_value.
  rewrite Hty, Htext.
  change (msg_type_of (str "content")) with (Some T_content). cbv iota.
  destruct w as [| b | neg m e | s | items | members];
    try done; try (by destruct (truthy _)).
  by destruct (Hw s).
Qed.

Lemma content_text_not_a_string_witness :
  Untyped.process_value
    (JObject [(str "type", JString (str "content")); (str "text", JNumber false 5 0)])
    {| Untyped.contentParts := [Untyped.Text (str "A")];
       Untyped.currentTextIndex := 0; Untyped.toolCallsIndex := -1 |}
  = ([],
     Some {| Untyped.contentParts := [Untyped.Text (str "A")];
             Untyped.currentTextIndex := 0; Untyped.toolCallsIndex := -1 |}).
Proof.
  apply (content_text_not_a_string
           (JObject [(str "type", JString (str "content"));
                     (str "text", JNumber false 5 0)])
           (JNumber false 5 0));
    [reflexivity | reflexivity | intros s; discriminate].
Defined.

(** ** The parts of every run *)

Lemma tool_call_part_coherent (tc : JSON) (p : Untyped.Part) :
  Untyped.tool_call_part tc = Some p -> Untyped.coherent p.
Proof.
  unfold Untyped.tool_call_part. intros H.
  assert (Hfn : exists fn,
             (text ← ToString (Untyped.raw_arguments fn);
              parsed ← JSON_parse text;
              Some (Untyped.ToolCall (get_prop tc "id") (get_prop fn "name")
                      parsed (Untyped.raw_arguments fn) None)) = Some p).
  { destruct tc; try done;
      destruct (get_prop _ "function") as [[]|]; try done; by eexists. }
  clear H. destruct Hfn as [fn H].
  destruct (ToString (Untyped.raw_arguments fn)) as [text|] eqn:Et; [|done].
  simpl in H. destruct (JSON_parse text) as [parsed|] eqn:Ep; [|done].
  injection H as <-. simpl. by exists text.
Qed.

Lemma push_tool_calls_coherent (tcs : list JSON) (parts : list Untyped.Part) :
  Forall Untyped.coherent parts ->
  Forall Untyped.coherent (fst (Untyped.push_tool_calls tcs parts)).
Proof.
  revert parts. induction tcs as [|tc tcs IH]; intros parts Hc; simpl; [done|].
  destruct (Untyped.tool_call_part tc) as [p|] eqn:E; [|done].
  apply IH, Forall_app. split; [done|]. constructor; [|done].
  by eapply tool_call_part_coherent.
Qed.

Lemma on_tool_calls_coherent (calls : JSON) (st : Untyped.State) :
  Forall Untyped.coherent (Untyped.contentParts st) ->
  Forall Untyped.coherent
    (Untyped.contentParts (snd (Untyped.on_tool_calls calls st))).
Proof.
  intros Hc. unfold Untyped.on_tool_calls.
  destruct calls as [| b | neg m e | [|c s] | [|tc tcs] | ms]; try exact Hc.
  - pose proof (push_tool_calls_coherent (tc :: tcs) _ Hc) as H.
    by destruct (Untyped.push_tool_calls (tc :: tcs) (Untyped.contentParts st))
      as [parts [|]].
  - by destruct (gt_zero _) as [[|]|].
Qed.

Lemma on_content_coherent (c : N) (text : jsstring) (st : Untyped.State) :
  Forall Untyped.coherent (Untyped.contentParts st) ->
  Forall Untyped.coherent
    (Untyped.contentParts (Untyped.on_content (c :: text) st)).
Proof.
  intros Hc. unfold Untyped.on_content.
  destruct (Untyped.open_text st) as [t|]; simpl.
  - apply Forall_insert; [exact Hc|]. simpl. by destruct t.
  - apply Forall_app. split; [exact Hc|]. by constructor.
Qed.

Lemma set_result_coherent (name res : JSON) (parts : list Untyped.Part) :
  Forall Untyped.coherent parts ->
  Forall Untyped.coherent (Untyped.set_result name res parts).
Proof.
  induction 1 as [|[t | i n a raw r] parts Hp Hparts IH]; simpl; [done| |].
  - by constructor.
  - destruct (strict_equal n name); by constructor.
Qed.

Lemma tool_error_coherent (s : jsstring) (parts : list Untyped.Part) :
  Forall Untyped.coherent parts ->
  Forall Untyped.coherent (parts ++ [Untyped.Text (tool_error_text s)]).
Proof. intros Hc. apply Forall_app. split; [exact Hc|]. by constructor. Qed.

Lemma handle_value_coherent (v : JSON) (st : Untyped.State) :
  Forall Untyped.coherent (Untyped.contentParts st) ->
  Forall Untyped.coherent
    (Untyped.contentParts (snd (Untyped.handle_value v st))).
Proof.
  intros Hc. unfold Untyped.handle_value.
  repeat case_match; subst;
    first [ exact Hc
          | by apply on_content_coherent
          | by apply on_tool_calls_coherent
          | by apply set_result_coherent
          | by apply tool_error_coherent ].
Qed.

Lemma run_values_coherent (vs : list JSON) (st : Untyped.State)
    (ys : list Untyped.Snapshot) (r : option Untyped.State) :
  Forall Untyped.coherent (Untyped.contentParts st) ->
  run_values vs st = (ys, r) ->
  Forall (Forall Untyped.coherent) ys
  /\ forall st', r = Some st' ->
       Forall Untyped.coherent (Untyped.contentParts st').
Proof.
  revert st ys r. induction vs as [|v vs IH]; intros st ys r Hc; simpl.
  - intros [= <- <-]. split; [done|]. by intros st' [= <-].
  - unfold Untyped.process_value.
    pose proof (handle_value_coherent v st Hc) as Hstep.
    destruct (Untyped.handle_value v st) as [[| |] st1]; cbn [snd] in Hstep.
    + destruct (run_values vs st1) as [ys' r'] eqn:Hrun.
      intros [= <- <-]. destruct (IH _ _ _ Hstep Hrun) as [Hys Hfinal].
      split; [|exact Hfinal]. apply Forall_app. split; [|exact Hys].
      unfold Untyped.yield_parts.
      destruct (Untyped.contentParts st1); [done|]. by constructor.
    + destruct (run_values vs st1) as [ys' r'] eqn:Hrun.
      intros [= <- <-]. exact (IH _ _ _ Hstep Hrun).
    + intros [= <- <-]. by split.
Qed.

(** X24: in every snapshot of every run, whatever the frames hold, a text
    part has some text, and the [args] of a tool-call part are what
    [JSON.parse] gives for its [argsText] (converted to a string first when
    the frame had something else there). *)
Theorem run_parts_coherent (f : Fetch) :
  Forall (Forall Untyped.coherent) (yields (run f)).
Proof.
  destruct f as [e | [|] status statusText [b|]]; try by constructor.
  unfold run. rewrite read_loop_decode by reflexivity.
  destruct (run_values _ Untyped.initial_state) as [ys r] eqn:Hrun.
  destruct (run_values_coherent _ Untyped.initial_state _ _ (Forall_nil_2 _) Hrun)
    as [Hys Hfinal].
  unfold conclude. destruct r as [st|]; [|exact Hys].
  destruct (failure b); [exact Hys|]. simpl.
  apply Forall_app. split; [exact Hys|]. unfold Untyped.yield_parts.
  specialize (Hfinal st eq_refl).
  destruct (Untyped.contentParts st); [done|]. by constructor.
Qed.

(** ** The open-text index of every run *)

Lemma untyped_set_result_text_lookup (name res : JSON)
    (parts : list Untyped.Part) (i : nat) (t : jsstring) :
  parts !! i = Some (Untyped.Text t) ->
  Untyped.set_result name res parts !! i = Some (Untyped.Text t).
Proof.
  revert i. induction parts as [|[t' | j n a raw r] parts IH];
    intros [|i] Hi; simpl in *; try done.
  - by apply IH.
  - destruct (strict_equal n name); [done | by apply IH].
Qed.

Lemma untyped_index_valid_app (parts added : list Untyped.Part) (i k : Z) :
  Untyped.index_valid {| Untyped.contentParts := parts;
                         Untyped.currentTextIndex := i;
                         Untyped.toolCallsIndex := k |} ->
  forall k', Untyped.index_valid
               {| Untyped.contentParts := parts ++ added;
                  Untyped.currentTextIndex := i;
                  Untyped.toolCallsIndex := k' |}.
Proof.
  intros [H | (t & Hpos & Hl)] k'; [by left|]. right. exists t. simpl in *.
  split; [exact Hpos | by apply lookup_app_l_Some].
Qed.

Lemma on_content_index_valid (text : jsstring) (st : Untyped.State) :
  Untyped.index_valid (Untyped.on_content text st).
Proof.
  unfold Untyped.on_content.
  destruct (Untyped.open_text st) as [t|] eqn:E; right.
  - destruct (untyped_open_text_lookup st t E) as [Hpos Hl].
    exists (t ++ text). split; [exact Hpos|]. simpl.
    apply list_lookup_insert_eq. by eapply lookup_lt_Some.
  - exists text. simpl. split; [lia|].
    rewrite Nat2Z.id, lookup_app_r by lia. by rewrite Nat.sub_diag.
Qed.

Lemma on_tool_calls_index_valid (calls : JSON) (st : Untyped.State) :
  Untyped.index_valid st ->
  Untyped.index_valid (snd (Untyped.on_tool_calls calls st)).
Proof.
  intros Hv. unfold Untyped.on_tool_calls.
  assert (Hk : Untyped.index_valid (Untyped.with_toolCallsIndex st)).
  { destruct st as [parts i k]. exact Hv. }
  destruct calls as [| b | neg m e | [|c s] | [|tc tcs] | ms];
    try exact Hv; try exact Hk.
  - destruct (untyped_push_tool_calls_appends (tc :: tcs) (Untyped.contentParts st))
      as [ps Hps].
    destruct (Untyped.push_tool_calls (tc :: tcs) (Untyped.contentParts st))
      as [parts [|]]; cbn [fst] in Hps; subst parts; cbn [snd]; [by left|].
    destruct st as [parts i k]. exact (untyped_index_valid_app _ _ _ _ Hv _).
  - by destruct (gt_zero _) as [[|]|].
Qed.

Lemma set_result_index_valid (name res : JSON) (st : Untyped.State) :
  Untyped.index_valid st ->
  Untyped.index_valid
    (Untyped.with_parts
       (Untyped.set_result name res (Untyped.contentParts st)) st).
Proof.
  intros [H | (t & Hpos & Hl)]; [by left|].
  right. exists t. split; [exact Hpos|].
  by apply untyped_set_result_text_lookup.
Qed.

Lemma tool_error_index_valid (s : jsstring) (st : Untyped.State) :
  Untyped.index_valid st ->
  Untyped.index_valid
    (Untyped.with_parts
       (Untyped.contentParts st ++ [Untyped.Text (tool_error_text s)]) st).
Proof.
  intros Hv. destruct st as [parts i k].
  exact (untyped_index_valid_app _ _ _ _ Hv _).
Qed.

Lemma handle_value_index_valid (v : JSON) (st : Untyped.State) :
  Untyped.index_valid st ->
  Untyped.index_valid (snd (Untyped.handle_value v st)).
Proof.
  intros Hv. unfold Untyped.handle_value.
  repeat case_match; subst;
    first [ exact Hv
          | apply on_content_index_valid
          | by apply on_tool_calls_index_valid
          | by apply set_result_index_valid
          | by apply tool_error_index_valid ].
Qed.

Lemma run_values_index_valid (vs : list JSON) (st st' : Untyped.State)
    (ys : list Untyped.Snapshot) :
  Untyped.index_valid st -> run_values vs st = (ys, Some st') ->
  Untyped.index_valid st'.
Proof.
  revert st ys. induction vs as [|v vs IH]; intros st ys Hv; simpl.
  - by intros [= _ <-].
  - pose proof (handle_value_index_valid v st Hv) as Hstep.
    unfold Untyped.process_value.
    destruct (Untyped.handle_value v st) as [[| |] st1]; simpl in Hstep; [| |done].
    + destruct (run_values vs st1) as [ys' r'] eqn:Hrun.
      intros [= _ ->]. by eapply IH.
    + destruct (run_values vs st1) as [ys' r'] eqn:Hrun.
      intros [= _ ->]. by eapply IH.
Qed.

(** X25: after the values of any frames, handled from the initial state, the
    open-text index is [-1] or the index of a text part: also at run time
    the two further tests of [case "content"] never decide, and an event
    that throws in the middle of a batch leaves the index on a text part. *)
Theorem run_time_index_never_dangles (vs : list JSON) (st : Untyped.State)
    (ys : list Untyped.Snapshot) :
  run_values vs Untyped.initial_state = (ys, Some st) ->
  Untyped.index_valid st
  /\ (Untyped.open_text st = None <-> Untyped.currentTextIndex st = (-1)%Z).
Proof.
  intros Hrun.
  assert (Hv : Untyped.index_valid st).
  { eapply run_values_index_valid; [|exact Hrun]. by left. }
  split; [exact Hv|]. split.
  - intros Hnone. destruct Hv as [H | (t & Hpos & Hl)]; [exact H|].
    unfold Untyped.open_text, Untyped.at_index in Hnone.
    destruct (Untyped.currentTextIndex st =? -1)%Z eqn:E1;
      [by apply Z.eqb_eq in E1|].
    destruct (Untyped.currentTextIndex st <? 0)%Z eqn:E2;
      [apply Z.ltb_lt in E2; lia|].
    by rewrite Hl in Hnone.
  - intros H. unfold Untyped.open_text. by rewrite H.
Qed.

Lemma run_time_index_never_dangles_witness :
  Untyped.index_valid
    {| Untyped.contentParts :=
         [Untyped.Text (str "A");
          Untyped.ToolCall (Some (JString (str "1"))) None (JObject [])
            (JString (str "{}")) None];
       Untyped.currentTextIndex := 0; Untyped.toolCallsIndex := 1 |}.
Proof.
  apply (run_time_index_never_dangles
           [JObject [(str "type", JString (str "content"));
                     (str "text", JString (str "A"))];
            JObject [(str "type", JString (str "tool_calls"));
                     (str "tool_calls",
                      JArray [JObject [(str "id", JString (str "1"));
                                       (str "function", JObject [])];
                              JNull])]]
           _
           [[Untyped.Text (str "A")]]).
  reflexivity.
Defined.

(** ** Error and end frames, whatever else they hold *)

(** X26: a frame of type [error] never ends the run, whatever its other
    fields hold and whatever the state: the exception is caught inside the
    event, the state is kept, nothing is yielded, and the loop goes on. *)
Theorem error_frame_is_swallowed (v : JSON) (st : Untyped.State) :
  get_prop v "type" = Some (JString (str "error")) ->
  Untyped.handle_value v st = (Untyped.Thrown, st)
  /\ Untyped.process_value v st = ([], Some st)
  /\ forall rest, run_values (v :: rest) st = run_values rest st.
Proof.
  intros Hty.
  assert (Hh : Untyped.handle_value v st = (Untyped.Thrown, st)).
  { unfold Untyped.handle_value. by rewrite Hty. }
  assert (Hp : Untyped.process_value v st = ([], Some st)).
  { unfold Untyped.process_value. by rewrite Hh. }
  split; [exact Hh|]. split; [exact Hp|].
  intros rest. simpl. rewrite Hp. by destruct (run_values rest st).
Qed.

Lemma error_frame_is_swallowed_witness :
  Untyped.process_value
    (JObject [(str "type", JString (str "error")); (str "error", JNull)])
    Untyped.initial_state
  = ([], Some Untyped.initial_state).
Proof.
  apply (error_frame_is_swallowed
           (JObject [(str "type", JString (str "error")); (str "error", JNull)])
           Untyped.initial_state).
  reflexivity.
Defined.

(** X27: a frame of type [done] ends the run: the frames after it are not
    handled and nothing is yielded for it, so that what is yielded is what
    the frames before it gave. *)
Theorem done_frame_ends_the_run (vs rest : list JSON) (v : JSON)
    (st : Untyped.State) :
  get_prop v "type" = Some (JString (str "done")) ->
  run_values (vs ++ v :: rest) st = (fst (run_values vs st), None).
Proof.
  intros Hty. rewrite run_values_app.
  destruct (run_values vs st) as [ys [st'|]]; [|done].
  simpl. unfold Untyped.process_value, Untyped.handle_value. rewrite Hty.
  simpl. by rewrite app_nil_r.
Qed.

Lemma done_frame_ends_the_run_witness :
  run_values
    ([JObject [(str "type", JString (str "content"));
               (str "text", JString (str "A"))]]
     ++ done_record
     :: [JObject [(str "type", JString (str "content"));
                  (str "text", JString (str "B"))]])
    Untyped.initial_state
  = ([[Untyped.Text (str "A")]], None).
Proof.
  apply (done_frame_ends_the_run
           [JObject [(str "type", JString (str "content"));
                     (str "text", JString (str "A"))]]
           [JObject [(str "type", JString (str "content"));
                     (str "text", JString (str "B"))]]
           done_record Untyped.initial_state).
  reflexivity.
Defined.
